(** * joystick_control_mycobot: a joystick-driven controller for myCobot

    A shallow embedding of [src/myCobot/joystick_control_mycobot.py]:
    the observer pipeline [Joystick_Detector] -> [Joystick_Signal_Adapter]
    -> [Customized_MyCobot], and the shutdown sequence of [main].

    Modelling conventions.
    - Python [int] is [Z].  An angle (Python [int] or [float]) is the
      rational [Q] it denotes; an addition or subtraction of floats is the
      exact result rounded to binary64, to nearest with ties to even
      ([binary64]).  Results beyond the range of binary64, which Python
      turns into infinities, are not modelled.
    - Button names are the strings XInput reports; a Python [set] of them
      is a [gset string].
    - Python objects that are mutated in place and shared by reference (the
      adapter's set and lists) live in a heap, and a reference is a
      location of that heap.
    - Calls that leave the program (actuator API, console, clock) are
      recorded in a trace, in program order.
    - A Python exception is an outcome [Raise]; what was mutated and
      recorded before the raise is kept. *)

From Stdlib Require Import ZArith QArith Lqa Qround Qpower.
From stdpp Require Import gmap strings list.

Close Scope Q_scope.
Open Scope Z_scope.

(** ** Exceptions, external calls and the effect monad *)

Inductive exn : Type :=
| KeyboardInterrupt (msg : string)
| KeyError (key : string)
| IndexError
| ValueError
| TypeError.

(** What the program does that is visible from outside, with the arguments
    given: calls into the actuator API ([pymycobot.MyCobot]), the console
    and the clock, and, for [main], the thread operations and the removal
    of an observer from a subject. *)
Inductive call : Type :=
| send_angles (degrees : list Q) (speed : Z)
| send_angle (id : Z) (degree : Q) (speed : Z)
| stop
| set_color (r g b : Z)
| get_angles
| release_all_servos
| print_joint (j : Z)
| print (text : string)
| print_countdown (i : Z)
| sleep (seconds : Q)
| start (thread : string)
| kill (thread : string)
| pop_observer (subject : string) (index : nat).

(** [Pending]: the computation is inside a [while True] loop that has not
    been left when the modelled horizon ends. *)
Inductive outcome (A : Type) : Type :=
| Ret (a : A)
| Raise (e : exn)
| Pending.
Arguments Ret {A} a.
Arguments Raise {A} e.
Arguments Pending {A}.

(** A computation over a mutable state [S]: its outcome, the state it
    leaves and the calls it made. *)
Definition M (S A : Type) : Type := S -> outcome A * S * list call.

Definition ret {S A} (a : A) : M S A := fun s => (Ret a, s, []).

Definition raise {S A} (e : exn) : M S A := fun s => (Raise e, s, []).

Definition bind {S A B} (m : M S A) (f : A -> M S B) : M S B :=
  fun s =>
    match m s with
    | (Ret a, s1, t1) =>
        match f a s1 with
        | (r, s2, t2) => (r, s2, t1 ++ t2)
        end
    | (Raise e, s1, t1) => (Raise e, s1, t1)
    | (Pending, s1, t1) => (Pending, s1, t1)
    end.

Definition pending {S A} : M S A := fun s => (Pending, s, []).

Definition emit {S} (c : call) : M S unit := fun s => (Ret tt, s, [c]).

Definition get {S} : M S S := fun s => (Ret s, s, []).

Definition put {S} (s : S) : M S unit := fun _ => (Ret tt, s, []).

Notation "x <- m ;; k" := (bind m (fun x => k))
  (at level 100, m at next level, right associativity).
Notation "m ;;; k" := (bind m (fun _ => k))
  (at level 100, right associativity).

(** Python's [l[i]]: a negative index counts from the end, and an index
    outside the list raises [IndexError]. *)
Definition py_index {A} (l : list A) (i : Z) : option nat :=
  let n := Z.of_nat (length l) in
  let k := if i <? 0 then i + n else i in
  if (0 <=? k) && (k <? n) then Some (Z.to_nat k) else None.

Definition py_getitem {A} (l : list A) (i : Z) : option A :=
  k ← py_index l i; l !! k.

(** Python's [l[i] = v]: in place, same index rule. *)
Definition py_setitem {A} (l : list A) (i : Z) (v : A) : option (list A) :=
  k ← py_index l i; Some (<[k := v]> l).

Definition getitem {S A} (l : list A) (i : Z) : M S A :=
  match py_getitem l i with
  | Some a => ret a
  | None => raise IndexError
  end.

(** ** Python floats

    A float is the rational it denotes.  [binary64 q] is the float nearest
    to [q], ties going to the even mantissa: the result of a float
    operation whose exact value is [q].  The mantissa has 53 bits and the
    exponent of the last place is at least -1074. *)

(** [2 ^ e], also for negative [e]. *)
Definition pow2 (e : Z) : Q := (2 ^ e)%Q.

(** The [e] with [2 ^ e <= q < 2 ^ (e + 1)], for positive [q]. *)
Definition ilog2 (q : Q) : Z :=
  let k := Z.log2 (Qnum q) - Z.log2 (Zpos (Qden q)) in
  if Qle_bool (pow2 k) q then k else k - 1.

(** The nearest integer, ties to even. *)
Definition rne (q : Q) : Z :=
  let f := Qfloor q in
  match (q - inject_Z f ?= 1 # 2)%Q with
  | Lt => f
  | Gt => f + 1
  | Eq => if Z.even f then f else f + 1
  end.

(** Rounding of a positive rational to 53 bits. *)
Definition round_positive (q : Q) : Q :=
  let e := Z.max (ilog2 q) (-1022) - 52 in
  (inject_Z (rne (q * pow2 (- e))) * pow2 e)%Q.

Definition binary64 (q : Q) : Q :=
  match (q ?= 0)%Q with
  | Eq => 0%Q
  | Gt => Qred (round_positive q)
  | Lt => Qred (- round_positive (- q))
  end.

(** ** The snapshot handed to the controller *)

(** The dictionary [signals] as the controller reads it:
    ['buttons'], ['triggers'] and ['sticks']. *)
Record Signals : Type := mkSignals {
  buttons : gset string;
  triggers : list Q;
  sticks : list (Q * Q)
}.

Definition pressed (b : string) (signals : Signals) : bool :=
  bool_decide (b ∈ buttons signals).

(** ** Customized_MyCobot *)

Record MyCobot : Type := mkMyCobot {
  color : Z * Z * Z;
  joint : Z
}.

Definition _MIN_ANGLES : list Q :=
  [(-160)%Q; (-100)%Q; (-150)%Q; (-150)%Q; (-160)%Q; (-180)%Q].
Definition _MAX_ANGLES : list Q :=
  [160%Q; 100%Q; 150%Q; 150%Q; 160%Q; 180%Q].

(** [__init__]: the fields after construction. *)
Definition init_color : Z * Z * Z := (0, 255, 0).
Definition init_MyCobot : MyCobot := {| color := init_color; joint := 1 |}.

(** The arithmetic of [next_color] on the triple [self.color]. *)
Definition next_rgb (c : Z * Z * Z) : Z * Z * Z :=
  let '(r, g, b) := c in
  if (r =? 0) && (0 <? g) then
    let g := Z.max (g - 32) 0 in
    let b := 255 - g in
    (r, g, b)
  else if (g =? 0) && (0 <? b) then
    let b := Z.max (b - 32) 0 in
    let r := 255 - b in
    (r, g, b)
  else if (b =? 0) && (0 <? r) then
    let r := Z.max (r - 32) 0 in
    let g := 255 - r in
    (r, g, b)
  else (r, g, b).

Definition next_color : M MyCobot unit :=
  self <- get ;;
  let '(r, g, b) := next_rgb (color self) in
  put {| color := (r, g, b); joint := joint self |} ;;;
  emit (set_color r g b).

Definition sleep_pose : list Q :=
  [83%Q; 140%Q; (-150)%Q; 154%Q; 87%Q; 0%Q].

Definition go_sleep {S} : M S unit :=
  emit (send_angles sleep_pose 50).

Definition _get_combination_action (signals : Signals) : option string :=
  if pressed "LEFT_SHOULDER" signals
     && pressed "RIGHT_SHOULDER" signals
     && pressed "START" signals
     && pressed "BACK" signals
  then Some "end_program"%string
  else None.

Definition set_joint (j : Z) : M MyCobot unit :=
  self <- get ;;
  put {| color := color self; joint := j |}.

(** [update(signals)].  [reported] is what the actuator answers to
    [get_angles()] during this call. *)
Definition update (signals : Signals) (reported : list Q) : M MyCobot unit :=
  if (0 <? size (buttons signals))%nat then
    (if bool_decide (_get_combination_action signals = Some "end_program"%string)
     then raise (KeyboardInterrupt "")
     else if pressed "A" signals then
       emit (send_angles [0%Q; 0%Q; 0%Q; 0%Q; 0%Q; 0%Q] 50)
     else if pressed "B" signals then
       emit (send_angles [83%Q; 140%Q; (-150)%Q; 154%Q; 87%Q; 0%Q] 50)
     else if pressed "X" signals then
       emit stop
     else if pressed "Y" signals then
       next_color
     else if pressed "DPAD_LEFT" signals then
       self <- get ;;
       theta <- (if joint self =? 6 then
                   emit get_angles ;;;
                   a <- getitem reported (joint self - 1) ;;
                   let theta := binary64 (a - 179) in
                   if Qlt_le_dec theta (-180)
                   then ret (binary64 (theta + 360))
                   else ret theta
                 else getitem _MIN_ANGLES (joint self - 1)) ;;
       emit (send_angle (joint self) theta 10)
     else if pressed "DPAD_RIGHT" signals then
       self <- get ;;
       theta <- (if joint self =? 6 then
                   emit get_angles ;;;
                   a <- getitem reported (joint self - 1) ;;
                   let theta := binary64 (a + 179) in
                   if Qlt_le_dec 180 theta
                   then ret (binary64 (theta - 360))
                   else ret theta
                 else getitem _MAX_ANGLES (joint self - 1)) ;;
       emit (send_angle (joint self) theta 10)
     else if pressed "LEFT_SHOULDER" signals then
       self <- get ;;
       if joint self =? 1 then set_joint 6
       else set_joint (joint self - 1)
     else if pressed "RIGHT_SHOULDER" signals then
       self <- get ;;
       if joint self =? 6 then set_joint 1
       else set_joint (joint self + 1)
     else ret tt) ;;;
    self <- get ;;
    emit (print_joint (joint self))
  else ret tt.

(** ** The heap of shared Python objects *)

Definition loc : Type := nat.

Inductive pyobj : Type :=
| PySet (s : gset string)
| PyNums (l : list Q)
| PyPairs (l : list (Q * Q))
| PyCobot (mc : MyCobot).

Abbreviation heap := (gmap nat pyobj).

(** A method of the object stored at [o], run on the heap. *)
Definition on_cobot {A} (o : loc) (m : M MyCobot A) : M heap A :=
  fun h =>
    match h !! o with
    | Some (PyCobot mc) =>
        match m mc with
        | (r, mc', t) => (r, <[o := PyCobot mc']> h, t)
        end
    | _ => (Raise TypeError, h, [])
    end.

(** ** XInput events *)

Inductive event_type : Type :=
| EVENT_CONNECTED
| EVENT_DISCONNECTED
| EVENT_BUTTON_PRESSED (button : string)
| EVENT_BUTTON_RELEASED (button : string)
| EVENT_TRIGGER_MOVED (trigger : Z) (value : Q)
| EVENT_STICK_MOVED (stick : Z) (dir : Q * Q).

Record Event : Type := mkEvent {
  user_index : Z;
  type : event_type
}.

(** ** Subject: the list of observers *)

Section Subject.
Context {O : Type} `{EqDecision O}.

(** [register]: [self.observers.extend(observers)]. *)
Definition register (observers new : list O) : list O :=
  observers ++ new.

(** [list.index]: the first position holding [x], if any. *)
Fixpoint list_index (l : list O) (x : O) : option nat :=
  match l with
  | [] => None
  | y :: l' => if decide (y = x) then Some 0%nat else S <$> list_index l' x
  end.

(** [disregister(observer)]: [index] raises [ValueError] when the
    observer is not registered, else the entry is popped. *)
Definition disregister (observers : list O) (observer : O)
  : outcome (list O) :=
  match list_index observers observer with
  | Some index => Ret (delete index observers)
  | None => Raise ValueError
  end.
End Subject.

(** ** Joystick_Signal_Adapter *)

(** The fields [pressed_button], [trigger_values] and [stick_values] hold
    references to a set and two lists of the heap. *)
Record Joystick_Signal_Adapter : Type := mkAdapter {
  pressed_button : loc;
  trigger_values : loc;
  stick_values : loc;
  observers : list loc;
  keyboard_interrupt : option exn
}.

(** [__init__] allocates the three objects at fresh locations. *)
Definition init_Adapter (h : heap) (p t s : loc)
  : Joystick_Signal_Adapter * heap :=
  ({| pressed_button := p; trigger_values := t; stick_values := s;
      observers := []; keyboard_interrupt := None |},
   <[s := PyPairs [(0%Q, 0%Q); (0%Q, 0%Q)]]>
     (<[t := PyNums [0%Q; 0%Q]]> (<[p := PySet ∅]> h))).

(** [update(e)], the observer side: the event changes the shared objects
    in place. *)
Definition adapter_update (self : Joystick_Signal_Adapter) (e : Event)
  : M heap unit :=
  if negb (user_index e =? 0) then ret tt
  else
    match type e with
    | EVENT_BUTTON_PRESSED button =>
        h <- get ;;
        match h !! pressed_button self with
        | Some (PySet s) => put (<[pressed_button self := PySet ({[button]} ∪ s)]> h)
        | _ => raise TypeError
        end
    | EVENT_BUTTON_RELEASED button =>
        h <- get ;;
        match h !! pressed_button self with
        | Some (PySet s) =>
            if bool_decide (button ∈ s)
            then put (<[pressed_button self := PySet (s ∖ {[button]})]> h)
            else raise (KeyError button)
        | _ => raise TypeError
        end
    | EVENT_TRIGGER_MOVED i value =>
        h <- get ;;
        match h !! trigger_values self with
        | Some (PyNums l) =>
            match py_setitem l i value with
            | Some l' => put (<[trigger_values self := PyNums l']> h)
            | None => raise IndexError
            end
        | _ => raise TypeError
        end
    | EVENT_STICK_MOVED i dir =>
        h <- get ;;
        match h !! stick_values self with
        | Some (PyPairs l) =>
            match py_setitem l i dir with
            | Some l' => put (<[stick_values self := PyPairs l']> h)
            | None => raise IndexError
            end
        | _ => raise TypeError
        end
    | _ => ret tt
    end.

(** The dictionary [signals] built by [notify]: each value is the
    adapter's own object, held by reference. *)
Record SignalsDict : Type := mkDict {
  buttons_ref : loc;
  triggers_ref : loc;
  sticks_ref : loc
}.

Definition signals_of (self : Joystick_Signal_Adapter) : SignalsDict :=
  {| buttons_ref := pressed_button self;
     triggers_ref := trigger_values self;
     sticks_ref := stick_values self |}.

(** What a holder of the dictionary reads through it, in heap [h]. *)
Definition read_signals (h : heap) (d : SignalsDict) : option Signals :=
  match h !! buttons_ref d, h !! triggers_ref d, h !! sticks_ref d with
  | Some (PySet s), Some (PyNums t), Some (PyPairs p) =>
      Some {| buttons := s; triggers := t; sticks := p |}
  | _, _, _ => None
  end.

(** [observer.update(obj)] for an observer that is a [Customized_MyCobot]. *)
Definition observer_update (observer : loc) (obj : SignalsDict)
    (reported : list Q) : M heap unit :=
  h <- get ;;
  match read_signals h obj with
  | Some signals => on_cobot observer (update signals reported)
  | None => raise TypeError
  end.

(** [Subject.notify(obj)]. *)
Fixpoint Subject_notify (observers : list loc) (obj : SignalsDict)
    (reported : list Q) : M heap unit :=
  match observers with
  | [] => ret tt
  | observer :: rest =>
      observer_update observer obj reported ;;;
      Subject_notify rest obj reported
  end.

Definition notify (self : Joystick_Signal_Adapter) (reported : list Q)
  : M heap unit :=
  let signals := signals_of self in
  Subject_notify (observers self) signals reported.

(** ** Joystick_Detector *)

(** One turn of the inner loops of [Joystick_Detector.run]: the event goes
    to every observer in turn. *)
Fixpoint detector_dispatch (observers : list Joystick_Signal_Adapter)
    (e : Event) : M heap unit :=
  match observers with
  | [] => ret tt
  | observer :: rest =>
      adapter_update observer e ;;; detector_dispatch rest e
  end.

(** [Joystick_Detector.run] on the events XInput yields.  Nothing is
    caught: an exception of an observer ends the loop. *)
Fixpoint detector_run (observers : list Joystick_Signal_Adapter)
    (events : list Event) : M heap unit :=
  match events with
  | [] => ret tt
  | e :: rest =>
      detector_dispatch observers e ;;; detector_run observers rest
  end.

(** ** The clock loop of the adapter *)

(** The two threads are interleaved at the grain of the clock loop: a
    [tick] gives the events the detector thread handled since the previous
    turn of the loop, and what the actuator reports during this turn. *)
Record tick : Type := mkTick {
  incoming : list Event;
  reported : list Q
}.

Definition is_Ret {A} (r : outcome A) : bool :=
  match r with Ret _ => true | _ => false end.

(** What the detector thread does before a turn of the loop; [alive] tells
    whether it is still running, and the result whether it stays so. *)
Definition detector_turn (self : Joystick_Signal_Adapter) (alive : bool)
    (events : list Event) (h : heap) : bool * heap :=
  if alive then
    match detector_run [self] events h with
    | (r, h', _) => (is_Ret r, h')
    end
  else (false, h).

(** [Subject.notify] with the detector thread at work meanwhile.  The
    dictionary [obj] has been built; [arrivals] gives, for each observer in
    turn, the events the detector thread handles before that observer's
    [update] reads the dictionary. *)
Fixpoint Subject_notify_during (self : Joystick_Signal_Adapter) (alive : bool)
    (observers : list loc) (obj : SignalsDict) (reported : list Q)
    (arrivals : list (list Event)) : M heap unit :=
  match observers with
  | [] => ret tt
  | observer :: rest =>
      fun h =>
        match detector_turn self alive (hd [] arrivals) h with
        | (alive', h') =>
            (observer_update observer obj reported ;;;
             Subject_notify_during self alive' rest obj reported
               (tl arrivals)) h'
        end
  end.

(** [notify] under the same interleaving: the dictionary is built first,
    from the adapter's fields. *)
Definition notify_during (self : Joystick_Signal_Adapter) (alive : bool)
    (reported : list Q) (arrivals : list (list Event)) : M heap unit :=
  let signals := signals_of self in
  Subject_notify_during self alive (observers self) signals reported arrivals.

(** The body of [run]: [while True: self.notify(); time.sleep(0.1)], for
    as many turns as the schedule has. *)
Fixpoint run_loop (self : Joystick_Signal_Adapter) (alive : bool)
    (schedule : list tick) : M heap unit :=
  match schedule with
  | [] => pending
  | t :: rest =>
      fun h =>
        match detector_turn self alive (incoming t) h with
        | (alive', h') =>
            (notify self (reported t) ;;;
             emit (sleep (1 # 10)) ;;;
             run_loop self alive' rest) h'
        end
  end.

(** How the adapter thread stands after the schedule. *)
Inductive thread_state : Type :=
| Looping
| Returned
| Died (e : exn).

(** [self.keyboard_interrupt = e]. *)
Definition store_interrupt (self : Joystick_Signal_Adapter) (e : exn)
  : Joystick_Signal_Adapter :=
  {| pressed_button := pressed_button self;
     trigger_values := trigger_values self;
     stick_values := stick_values self;
     observers := observers self;
     keyboard_interrupt := Some e |}.

(** [run]: the loop inside [try ... except KeyboardInterrupt as e], which
    stores [e] in [self.keyboard_interrupt]. *)
Definition run (self : Joystick_Signal_Adapter) (schedule : list tick)
    (h : heap) : thread_state * Joystick_Signal_Adapter * heap * list call :=
  match run_loop self true schedule h with
  | (Pending, h', t) => (Looping, self, h', t)
  | (Ret _, h', t) => (Returned, self, h', t)
  | (Raise (KeyboardInterrupt msg), h', t) =>
      (Returned, store_interrupt self (KeyboardInterrupt msg), h', t)
  | (Raise e, h', t) => (Died e, self, h', t)
  end.

(** Where the loop stands after the turns of a schedule it has gone
    through without leaving: whether the detector thread is alive, and the
    heap.  [None] when the loop was left during the schedule. *)
Fixpoint loop_state (self : Joystick_Signal_Adapter) (alive : bool)
    (schedule : list tick) (h : heap) : option (bool * heap) :=
  match schedule with
  | [] => Some (alive, h)
  | t :: rest =>
      match detector_turn self alive (incoming t) h with
      | (alive', h') =>
          match (notify self (reported t) ;;; emit (sleep (1 # 10))) h' with
          | (Ret _, h'', _) => loop_state self alive' rest h''
          | _ => None
          end
      end
  end.

(** The wiring of [main]: the controller at location 0, the adapter's
    objects at 1, 2 and 3, and the controller registered with the adapter. *)
Definition wired : Joystick_Signal_Adapter * heap :=
  let h := {[ 0%nat := PyCobot init_MyCobot ]} in
  match init_Adapter h 1%nat 2%nat 3%nat with
  | (sa, h') =>
      ({| pressed_button := pressed_button sa;
          trigger_values := trigger_values sa;
          stick_values := stick_values sa;
          observers := register (observers sa) [0%nat];
          keyboard_interrupt := keyboard_interrupt sa |}, h')
  end.

(** ** main *)

(** [try: body except KeyboardInterrupt: handler]. *)
Definition try_except_KeyboardInterrupt {S A} (body handler : M S A) : M S A :=
  fun s =>
    match body s with
    | (Raise (KeyboardInterrupt _), s1, t1) =>
        match handler s1 with
        | (r, s2, t2) => (r, s2, t1 ++ t2)
        end
    | other => other
    end.

(** [try: body finally: final]: [final] runs however [body] ends; when
    [final] raises, that exception replaces the outcome of [body]. *)
Definition try_finally {S A} (body : M S A) (final : M S unit) : M S A :=
  fun s =>
    match body s with
    | (Pending, s1, t1) => (Pending, s1, t1)
    | (r, s1, t1) =>
        match final s1 with
        | (Ret _, s2, t2) => (r, s2, t1 ++ t2)
        | (Raise e, s2, t2) => (Raise e, s2, t1 ++ t2)
        | (Pending, s2, t2) => (Pending, s2, t1 ++ t2)
        end
    end.

Fixpoint for_each {S A} (l : list A) (body : A -> M S unit) : M S unit :=
  match l with
  | [] => ret tt
  | a :: l' => body a ;;; for_each l' body
  end.

(** [range(n, 0, -1)]. *)
Fixpoint range_down (n : nat) : list Z :=
  match n with
  | O => []
  | S n' => Z.of_nat n :: range_down n'
  end.

(** The objects [main] constructs. *)
Inductive object : Type := obj_mc | obj_sa | obj_jd.

#[global] Instance object_eq_dec : EqDecision object.
Proof. solve_decision. Defined.

(** The state of the main thread: the statements it has begun, and the
    observer lists of the two subjects. *)
Record Main : Type := mkMain {
  clock : nat;
  jd_observers : list object;
  sa_observers : list object
}.

Definition init_Main : Main :=
  {| clock := 0; jd_observers := []; sa_observers := [] |}.

Section Main.
(** [ctrl_c k]: the operator's interrupt reaches the main thread as it
    begins its [k]-th statement.  [stored k]: what the main thread reads
    in [sa.keyboard_interrupt] at its [k]-th statement. *)
Variable ctrl_c : nat -> bool.
Variable stored : nat -> option exn.

(** One statement of the main thread: a pending interrupt is raised in
    place of the statement. *)
Definition stmt {A} (m : M Main A) : M Main A :=
  fun s =>
    let s' := {| clock := S (clock s);
                 jd_observers := jd_observers s;
                 sa_observers := sa_observers s |} in
    if ctrl_c (clock s) then (Raise (KeyboardInterrupt ""), s', [])
    else m s'.

Definition jd_register (o : object) : M Main unit :=
  s <- get ;;
  put {| clock := clock s;
         jd_observers := register (jd_observers s) [o];
         sa_observers := sa_observers s |}.

Definition sa_register (o : object) : M Main unit :=
  s <- get ;;
  put {| clock := clock s;
         jd_observers := jd_observers s;
         sa_observers := register (sa_observers s) [o] |}.

Definition jd_disregister (o : object) : M Main unit :=
  s <- get ;;
  match list_index (jd_observers s) o, disregister (jd_observers s) o with
  | Some index, Ret l =>
      put {| clock := clock s; jd_observers := l;
             sa_observers := sa_observers s |} ;;;
      emit (pop_observer "jd" index)
  | _, _ => raise ValueError
  end.

Definition sa_disregister (o : object) : M Main unit :=
  s <- get ;;
  match list_index (sa_observers s) o, disregister (sa_observers s) o with
  | Some index, Ret l =>
      put {| clock := clock s; jd_observers := jd_observers s;
             sa_observers := l |} ;;;
      emit (pop_observer "sa" index)
  | _, _ => raise ValueError
  end.

(** [while True: if sa.keyboard_interrupt is not None: raise ...], for
    at most [fuel] turns. *)
Fixpoint supervise (fuel : nat) : M Main unit :=
  match fuel with
  | O => pending
  | S fuel' =>
      stmt (s <- get ;;
            match stored (Nat.pred (clock s)) with
            | Some e => raise e
            | None => ret tt
            end) ;;;
      supervise fuel'
  end.

Definition shutdown : M Main unit :=
  stmt (jd_disregister obj_sa) ;;;
  stmt (sa_disregister obj_mc) ;;;
  stmt (emit (kill "Joysticks Detector")) ;;;
  stmt (emit (kill "Joystick Signal Adapter")) ;;;
  stmt go_sleep ;;;
  stmt (emit (print "MyCobot is going to sleep, wait for 10 seconds.")) ;;;
  for_each (range_down 10)
    (fun i => stmt (emit (print_countdown i)) ;;; stmt (emit (sleep 1))) ;;;
  stmt (emit release_all_servos) ;;;
  stmt (emit (print "[done]")).

Definition main (fuel : nat) : M Main unit :=
  stmt (emit (print "__doc__")) ;;;
  stmt (emit (set_color 0 255 0) ;;; emit (print_joint 1)) ;;;
  stmt (ret tt) ;;;
  stmt (ret tt) ;;;
  stmt (jd_register obj_sa) ;;;
  stmt (sa_register obj_mc) ;;;
  try_finally
    (try_except_KeyboardInterrupt
       (stmt (emit (start "Joysticks Detector")) ;;;
        stmt (emit (start "Joystick Signal Adapter")) ;;;
        supervise fuel)
       (stmt (emit (print "User stopped the program."))))
    shutdown.
End Main.


(** ** Reading a computation *)

Definition result {S A} (m : M S A) (s : S) : outcome A := (m s).1.1.
Definition exec {S A} (m : M S A) (s : S) : S := (m s).1.2.
Definition trace {S A} (m : M S A) (s : S) : list call := (m s).2.

(** The commands to the actuator among the calls of a trace: set-angles,
    set-single-angle, stop-motion and set-color. *)
Definition is_command (c : call) : bool :=
  match c with
  | send_angles _ _ | send_angle _ _ _ | stop | set_color _ _ _ => true
  | _ => false
  end.

Definition commands (t : list call) : list call := List.filter is_command t.

(** The order in which [update] looks at the buttons, and the first of
    them that is pressed. *)
Definition priority : list string :=
  ["A"; "B"; "X"; "Y"; "DPAD_LEFT"; "DPAD_RIGHT";
   "LEFT_SHOULDER"; "RIGHT_SHOULDER"]%string.

Definition first_pressed (signals : Signals) : option string :=
  List.find (fun b => pressed b signals) priority.

(** [update] reaches the branch of button [b]: the four combination
    buttons are not all pressed, and [b] is the first pressed button. *)
Definition selects (b : string) (signals : Signals) : Prop :=
  _get_combination_action signals = None /\ first_pressed signals = Some b.

(** The snapshot with the same triggers and sticks and [b] alone pressed. *)
Definition only (b : string) (signals : Signals) : Signals :=
  {| buttons := {[ b ]}; triggers := triggers signals; sticks := sticks signals |}.

(** The controller after [n] color advances, from a given state. *)
Definition advance (n : nat) (mc : MyCobot) : MyCobot :=
  Nat.iter n (exec next_color) mc.

(** The controller after a sequence of snapshots, each with what the
    actuator reports at that time. *)
Definition updates (l : list (Signals * list Q)) (mc : MyCobot) : MyCobot :=
  foldl (fun mc t => exec (update t.1 t.2) mc) mc l.

(** ** Inputs and expected outputs named in the statements *)

(** The angle the DPAD_LEFT branch computes for joint 6 from the reported
    angle, and the one the DPAD_RIGHT branch computes. *)
Definition wrap_negative (theta : Q) : Q :=
  if Qlt_le_dec (binary64 (theta - 179)) (-180)
  then binary64 (binary64 (theta - 179) + 360)
  else binary64 (theta - 179).

Definition wrap_positive (theta : Q) : Q :=
  if Qlt_le_dec 180 (binary64 (theta + 179))
  then binary64 (binary64 (theta + 179) - 360)
  else binary64 (theta + 179).

(** Two floats: the one nearest to 0.01, a report of two decimals, and
    the one just below -1. *)
Definition float_0_01 : Q := (5764607523034235 # 576460752303423488)%Q.
Definition float_below_minus_1 : Q := (- (4503599627370497 # 4503599627370496))%Q.

(** The snapshot in which the listed buttons are pressed, triggers and
    sticks at rest. *)
Definition snapshot (l : list string) : Signals :=
  {| buttons := list_to_set l;
     triggers := [0%Q; 0%Q];
     sticks := [(0%Q, 0%Q); (0%Q, 0%Q)] |}.

Definition press (b : string) : Event :=
  {| user_index := 0; type := EVENT_BUTTON_PRESSED b |}.

Definition release (b : string) : Event :=
  {| user_index := 0; type := EVENT_BUTTON_RELEASED b |}.

(** The calls of the [finally] block, in order. *)
Definition shutdown_calls : list call :=
  [pop_observer "jd" 0; pop_observer "sa" 0;
   kill "Joysticks Detector"; kill "Joystick Signal Adapter";
   send_angles sleep_pose 50;
   print "MyCobot is going to sleep, wait for 10 seconds.";
   print_countdown 10; sleep 1; print_countdown 9; sleep 1;
   print_countdown 8; sleep 1; print_countdown 7; sleep 1;
   print_countdown 6; sleep 1; print_countdown 5; sleep 1;
   print_countdown 4; sleep 1; print_countdown 3; sleep 1;
   print_countdown 2; sleep 1; print_countdown 1; sleep 1;
   release_all_servos; print "[done]"].

(** The calls [main] has made when an exception leaves the [try] block at
    statement [k]. *)
Definition startup_calls (k : nat) : list call :=
  [print "__doc__"; set_color 0 255 0; print_joint 1]
  ++ (if (6 <? k)%nat then [start "Joysticks Detector"] else [])
  ++ (if (7 <? k)%nat then [start "Joystick Signal Adapter"] else []).

Definition combination_tick : tick :=
  {| incoming := [press "START"; press "BACK"; press "LEFT_SHOULDER";
                  press "RIGHT_SHOULDER"];
     reported := [] |}.

Definition idle_tick : tick := {| incoming := []; reported := [] |}.

Definition six_left : list (Signals * list Q) :=
  replicate 6 (snapshot ["LEFT_SHOULDER"%string], []).

Definition at_joint_6 : MyCobot := {| color := init_color; joint := 6 |}.

(** ** Predicates named in the further properties *)

(** An event the adapter's [update] does not look at: it comes from another
    controller than 0, or it is a connection event. *)
Definition ignored (e : Event) : Prop :=
  user_index e <> 0 \/ type e = EVENT_CONNECTED \/ type e = EVENT_DISCONNECTED.

(** The adapter's three objects are in the heap, a set and two lists of
    two slots each, as [__init__] makes them. *)
Definition well_formed (self : Joystick_Signal_Adapter) (h : heap) : Prop :=
  exists s, read_signals h (signals_of self) = Some s /\
            length (triggers s) = 2%nat /\ length (sticks s) = 2%nat.

(** [selects], as a test. *)
Definition selectsb (b : string) (signals : Signals) : bool :=
  bool_decide (_get_combination_action signals = None)
  && bool_decide (first_pressed signals = Some b).

(** The joint the LEFT_SHOULDER branch selects, and the one the
    RIGHT_SHOULDER branch selects. *)
Definition previous_joint (j : Z) : Z := if j =? 1 then 6 else j - 1.
Definition next_joint (j : Z) : Z := if j =? 6 then 1 else j + 1.

(** The three colors with a single channel lit. *)
Definition primary (c : Z * Z * Z) : Prop :=
  c = (255, 0, 0) \/ c = (0, 255, 0) \/ c = (0, 0, 255).

(** The calls that belong to the shutdown: removal of an observer, [kill],
    a pose sent with [send_angles], a wait, the release of the servos. *)
Definition is_shutdown_call (c : call) : bool :=
  match c with
  | pop_observer _ _ | kill _ | send_angles _ _ | sleep _
  | release_all_servos => true
  | _ => false
  end.

(** Two heaps that show the same pressed buttons through the adapter and
    hold the same objects everywhere but in its trigger and stick lists. *)
Definition same_but_analog (self : Joystick_Signal_Adapter) (h1 h2 : heap)
  : Prop :=
  (exists s1 s2, read_signals h1 (signals_of self) = Some s1 /\
                 read_signals h2 (signals_of self) = Some s2 /\
                 buttons s1 = buttons s2) /\
  (forall l, l <> trigger_values self -> l <> stick_values self ->
             h1 !! l = h2 !! l).

(** Inputs of the further properties. *)
Definition move_trigger (i : Z) (v : Q) : Event :=
  {| user_index := 0; type := EVENT_TRIGGER_MOVED i v |}.

Definition other_controller (e : Event) : Event :=
  {| user_index := 1; type := type e |}.

Definition wired_at_joint_6 : heap := <[0%nat := PyCobot at_joint_6]> wired.2.

Definition dpad_left_tick : tick :=
  {| incoming := [press "DPAD_LEFT"]; reported := [] |}.

(** ** The LED color *)

Definition color_inv (c : Z * Z * Z) : Prop :=
  let '(r, g, b) := c in
  r + g + b = 255 /\
  (0 <= r <= 255) /\ (0 <= g <= 255) /\ (0 <= b <= 255) /\
  (r = 0 \/ g = 0 \/ b = 0).

Lemma exec_next_color mc :
  exec next_color mc = {| color := next_rgb (color mc); joint := joint mc |}.
Proof.
  unfold exec, next_color, bind, get, put, emit. simpl.
  destruct (next_rgb (color mc)) as [[r g] b]. reflexivity.
Qed.

Lemma trace_next_color mc :
  trace next_color mc =
  let '(r, g, b) := next_rgb (color mc) in [set_color r g b].
Proof.
  unfold trace, next_color, bind, get, put, emit. simpl.
  destruct (next_rgb (color mc)) as [[r g] b]. reflexivity.
Qed.

Lemma next_rgb_inv c : color_inv c -> color_inv (next_rgb c).
Proof.
  destruct c as [[r g] b]. unfold color_inv, next_rgb.
  intros (Hsum & Hr & Hg & Hb & Hz).
  destruct (r =? 0) eqn:Er; destruct (0 <? g) eqn:Eg;
    destruct (g =? 0) eqn:Eg0; destruct (0 <? b) eqn:Eb;
    destruct (b =? 0) eqn:Eb0; destruct (0 <? r) eqn:Er0; simpl; lia.
Qed.

Lemma color_advance n mc :
  color (advance n mc) = Nat.iter n next_rgb (color mc).
Proof.
  induction n as [|n IH]; [reflexivity|].
  unfold advance in *. simpl. rewrite exec_next_color. simpl. now rewrite IH.
Qed.

Lemma advance_inv n mc : color_inv (color mc) -> color_inv (color (advance n mc)).
Proof.
  intros H. rewrite color_advance.
  induction n as [|n IH]; [exact H|]. simpl. now apply next_rgb_inv.
Qed.

Lemma advance_add n m mc : advance (n + m) mc = advance n (advance m mc).
Proof. unfold advance. apply Nat.iter_add. Qed.

Lemma init_color_inv : color_inv (color init_MyCobot).
Proof. unfold color_inv. simpl. lia. Qed.

(** C10: from the initial color (0, 255, 0), after any number of
    color advances the channels sum to 255, each lies in [0, 255], and at
    least one of them is zero. *)
Theorem next_color_invariant (n : nat) :
  let '(r, g, b) := color (advance n init_MyCobot) in
  r + g + b = 255 /\
  (0 <= r <= 255) /\ (0 <= g <= 255) /\ (0 <= b <= 255) /\
  (r = 0 \/ g = 0 \/ b = 0).
Proof.
  exact (advance_inv n init_MyCobot init_color_inv).
Qed.

(** C6: from (0, 255, 0) the colors of the first eight advances are
    fixed: green falls by 32 a step, clamped at 0, and blue is 255 minus
    green, so that the eighth advance reaches (0, 0, 255); each advance
    sends the new color to the LED; the sequence is bounded, every state
    has a zero channel, and it comes back to its start after 24 advances,
    so only 24 colors occur. *)
Theorem next_color_sequence :
  List.map (fun n => color (advance n init_MyCobot)) (seq 1 8) =
    [(0, 223, 32); (0, 191, 64); (0, 159, 96); (0, 127, 128);
     (0, 95, 160); (0, 63, 192); (0, 31, 224); (0, 0, 255)] /\
  (forall mc r g b, color mc = (r, g, b) -> r = 0 -> 0 < g ->
     color (exec next_color mc) = (r, Z.max (g - 32) 0, 255 - Z.max (g - 32) 0)) /\
  (forall mc r g b, color mc = (r, g, b) -> g = 0 -> 0 < b ->
     color (exec next_color mc) = (255 - Z.max (b - 32) 0, g, Z.max (b - 32) 0)) /\
  (forall mc r g b, color mc = (r, g, b) -> b = 0 -> 0 < r ->
     color (exec next_color mc) = (Z.max (r - 32) 0, 255 - Z.max (r - 32) 0, b)) /\
  (forall mc, trace next_color mc =
     let '(r, g, b) := color (exec next_color mc) in [set_color r g b]) /\
  (forall n, advance (n + 24) init_MyCobot = advance n init_MyCobot) /\
  (forall n, color_inv (color (advance n init_MyCobot))).
Proof.
  split; [reflexivity|].
  split.
  { intros mc r g b Hc -> Hg. rewrite exec_next_color. simpl. rewrite Hc.
    unfold next_rgb. simpl.
    destruct (0 <? g) eqn:E; [reflexivity | lia]. }
  split.
  { intros mc r g b Hc -> Hb. rewrite exec_next_color. simpl. rewrite Hc.
    unfold next_rgb.
    destruct (r =? 0) eqn:Er; destruct (0 <? 0) eqn:E0;
      destruct (0 <? b) eqn:Eb; simpl; try lia; reflexivity. }
  split.
  { intros mc r g b Hc -> Hr0. rewrite exec_next_color. simpl. rewrite Hc.
    unfold next_rgb.
    destruct (r =? 0) eqn:Er; destruct (0 <? g) eqn:Eg;
      destruct (g =? 0) eqn:Eg0; destruct (0 <? 0) eqn:E0;
      destruct (0 <? r) eqn:Er0; simpl; try lia; reflexivity. }
  split.
  { intros mc. rewrite trace_next_color, exec_next_color. reflexivity. }
  split.
  { intros n. rewrite advance_add. reflexivity. }
  intros n. apply advance_inv, init_color_inv.
Qed.

(** ** The priority rule of [update] *)

Lemma pressed_size b signals :
  pressed b signals = true -> (0 <? size (buttons signals))%nat = true.
Proof.
  unfold pressed. intros H. apply bool_decide_eq_true in H.
  apply Nat.ltb_lt.
  destruct (decide (size (buttons signals) = 0%nat)) as [E|E]; [|lia].
  apply size_empty_inv in E. apply leibniz_equiv in E.
  rewrite E in H. set_solver.
Qed.

Lemma pressed_elem b signals :
  pressed b signals = true -> b ∈ buttons signals.
Proof. unfold pressed. apply bool_decide_eq_true. Qed.

Lemma no_combination signals :
  _get_combination_action signals = None ->
  bool_decide (_get_combination_action signals = Some "end_program"%string) = false.
Proof. intros ->. now apply bool_decide_eq_false_2. Qed.

(** Splits on the buttons of [priority] in turn, as far as the hypothesis
    on [first_pressed] needs. *)
Ltac split_priority H :=
  unfold first_pressed, priority in H; cbn [List.find] in H;
  repeat match type of H with
         | (if pressed ?b ?s then _ else _) = _ =>
             let E := fresh "E" in
             destruct (pressed b s) eqn:E; [try discriminate H|]
         end;
  try discriminate H.

(** Takes the branch of [update] that the hypotheses on the pressed
    buttons select. *)
Ltac enter_update Hc :=
  unfold update;
  rewrite (no_combination _ Hc);
  match goal with
  | E : pressed ?b ?s = true |- _ => rewrite (pressed_size b s E)
  end;
  repeat match goal with
         | E : pressed _ _ = _ |- _ => rewrite E; clear E
         end.

Lemma update_none_pressed signals reported mc :
  (0 < size (buttons signals))%nat ->
  _get_combination_action signals = None ->
  first_pressed signals = None ->
  update signals reported mc = (Ret tt, mc, [print_joint (joint mc)]).
Proof.
  intros Hs Hc H. apply Nat.ltb_lt in Hs.
  unfold first_pressed, priority in H; cbn [List.find] in H.
  repeat match type of H with
         | (if pressed ?b ?s then _ else _) = _ =>
             let E := fresh "E" in
             destruct (pressed b s) eqn:E; [discriminate H|]
         end.
  unfold update. rewrite (no_combination _ Hc), Hs.
  repeat match goal with
         | E' : pressed _ signals = _ |- _ => rewrite E'; clear E'
         end.
  reflexivity.
Qed.

(** The two branches that change the selected joint. *)
Lemma update_LEFT_SHOULDER signals reported mc :
  selects "LEFT_SHOULDER" signals ->
  update signals reported mc =
    let j := if joint mc =? 1 then 6 else joint mc - 1 in
    (Ret tt, {| color := color mc; joint := j |}, [print_joint j]).
Proof.
  intros [Hc H]. split_priority H. enter_update Hc.
  unfold bind, get, set_joint. simpl.
  destruct (joint mc =? 1); reflexivity.
Qed.

Lemma update_RIGHT_SHOULDER signals reported mc :
  selects "RIGHT_SHOULDER" signals ->
  update signals reported mc =
    let j := if joint mc =? 6 then 1 else joint mc + 1 in
    (Ret tt, {| color := color mc; joint := j |}, [print_joint j]).
Proof.
  intros [Hc H]. split_priority H. enter_update Hc.
  unfold bind, get, set_joint. simpl.
  destruct (joint mc =? 6); reflexivity.
Qed.

Lemma updates_cons t l mc :
  updates (t :: l) mc = updates l (exec (update t.1 t.2) mc).
Proof. reflexivity. Qed.

Lemma updates_LEFT_SHOULDER l : forall mc,
  Forall (fun t => selects "LEFT_SHOULDER" t.1) l ->
  joint (updates l mc) =
    Nat.iter (length l) (fun j => if j =? 1 then 6 else j - 1) (joint mc).
Proof.
  induction l as [|t l IH]; intros mc Hl; [reflexivity|].
  inversion Hl as [|? ? Ht Hl']; subst.
  rewrite updates_cons, (IH _ Hl'). unfold exec.
  rewrite (update_LEFT_SHOULDER _ _ _ Ht). cbn [length].
  rewrite Nat.iter_succ_r. reflexivity.
Qed.

Lemma updates_RIGHT_SHOULDER l : forall mc,
  Forall (fun t => selects "RIGHT_SHOULDER" t.1) l ->
  joint (updates l mc) =
    Nat.iter (length l) (fun j => if j =? 6 then 1 else j + 1) (joint mc).
Proof.
  induction l as [|t l IH]; intros mc Hl; [reflexivity|].
  inversion Hl as [|? ? Ht Hl']; subst.
  rewrite updates_cons, (IH _ Hl'). unfold exec.
  rewrite (update_RIGHT_SHOULDER _ _ _ Ht). cbn [length].
  rewrite Nat.iter_succ_r. reflexivity.
Qed.

Lemma joint_cases j : 1 <= j <= 6 -> j = 1 \/ j = 2 \/ j = 3 \/ j = 4 \/ j = 5 \/ j = 6.
Proof. lia. Qed.

(** C1: [update] first checks the termination combination, then
    performs the single action of the first pressed button [b] in the order
    A, B, X, Y, DPAD_LEFT, DPAD_RIGHT, LEFT_SHOULDER, RIGHT_SHOULDER; the
    other pressed buttons have no effect.  With the combination pressed it
    raises KeyboardInterrupt and does nothing else.  Otherwise it does
    exactly what it does when [b] alone is pressed, which is: for A the
    standing pose at speed 50; for B the sleeping pose at speed 50; for X
    [stop]; for Y the next color, stored and sent; for DPAD_LEFT and
    DPAD_RIGHT one [send_angle] of the selected joint at speed 10, to its
    minimum or maximum, or for joint 6 to the reported angle moved by 179
    and wrapped; for LEFT_SHOULDER and RIGHT_SHOULDER the previous or next
    joint selected; each followed by the print of the joint number. *)
Theorem update_priority signals reported mc b :
  first_pressed signals = Some b ->
  (_get_combination_action signals = Some "end_program"%string ->
   update signals reported mc = (Raise (KeyboardInterrupt ""), mc, [])) /\
  (_get_combination_action signals = None ->
   update signals reported mc = update (only b signals) reported mc /\
   (b = "A"%string ->
    update signals reported mc =
      (Ret tt, mc,
       [send_angles [0%Q; 0%Q; 0%Q; 0%Q; 0%Q; 0%Q] 50; print_joint (joint mc)])) /\
   (b = "B"%string ->
    update signals reported mc =
      (Ret tt, mc,
       [send_angles [83%Q; 140%Q; (-150)%Q; 154%Q; 87%Q; 0%Q] 50;
        print_joint (joint mc)])) /\
   (b = "X"%string ->
    update signals reported mc = (Ret tt, mc, [stop; print_joint (joint mc)])) /\
   (b = "Y"%string ->
    update signals reported mc =
      let '(r, g, b') := next_rgb (color mc) in
      (Ret tt, {| color := (r, g, b'); joint := joint mc |},
       [set_color r g b'; print_joint (joint mc)])) /\
   (b = "DPAD_LEFT"%string ->
    update signals reported mc =
      if joint mc =? 6 then
        match py_getitem reported (joint mc - 1) with
        | Some a =>
            (Ret tt, mc,
             [get_angles; send_angle (joint mc) (wrap_negative a) 10;
              print_joint (joint mc)])
        | None => (Raise IndexError, mc, [get_angles])
        end
      else
        match py_getitem _MIN_ANGLES (joint mc - 1) with
        | Some m =>
            (Ret tt, mc, [send_angle (joint mc) m 10; print_joint (joint mc)])
        | None => (Raise IndexError, mc, [])
        end) /\
   (b = "DPAD_RIGHT"%string ->
    update signals reported mc =
      if joint mc =? 6 then
        match py_getitem reported (joint mc - 1) with
        | Some a =>
            (Ret tt, mc,
             [get_angles; send_angle (joint mc) (wrap_positive a) 10;
              print_joint (joint mc)])
        | None => (Raise IndexError, mc, [get_angles])
        end
      else
        match py_getitem _MAX_ANGLES (joint mc - 1) with
        | Some m =>
            (Ret tt, mc, [send_angle (joint mc) m 10; print_joint (joint mc)])
        | None => (Raise IndexError, mc, [])
        end) /\
   (b = "LEFT_SHOULDER"%string ->
    update signals reported mc =
      (Ret tt, {| color := color mc; joint := previous_joint (joint mc) |},
       [print_joint (previous_joint (joint mc))])) /\
   (b = "RIGHT_SHOULDER"%string ->
    update signals reported mc =
      (Ret tt, {| color := color mc; joint := next_joint (joint mc) |},
       [print_joint (next_joint (joint mc))]))).
Proof.
  intros H. split.
  - intros Hc. split_priority H;
      unfold update;
      match goal with
      | E : pressed ?p signals = true |- _ => rewrite (pressed_size p signals E)
      end;
      rewrite Hc, bool_decide_eq_true_2 by reflexivity; reflexivity.
  - intros Hc. split.
    { split_priority H; injection H as <-.
      all: enter_update Hc.
      all: reflexivity. }
    destruct mc as [c j].
    split_priority H; injection H as <-;
      repeat (split; [intros Eb; try discriminate Eb; clear Eb|]);
      try (intros Eb; try discriminate Eb; clear Eb);
      enter_update Hc;
      unfold wrap_negative, wrap_positive, previous_joint, next_joint;
      cbv [next_color set_joint bind get put emit ret raise getitem];
      cbn [color joint fst snd];
      repeat match goal with
             | |- context [next_rgb ?x] => destruct (next_rgb x) as [[? ?] ?]
             | |- context [if ?a =? ?k then _ else _] => destruct (a =? k)
             | |- context [py_getitem ?l ?i] => destruct (py_getitem l i)
             | |- context [Qlt_le_dec ?a ?k] => destruct (Qlt_le_dec a k)
             end;
      reflexivity.
Qed.

(** C4: with the selected joint in 1..6, six consecutive snapshots
    that each reach the LEFT_SHOULDER branch leave the selected joint where
    it was, and so do six that each reach the RIGHT_SHOULDER branch; the
    LEFT_SHOULDER branch takes joint 1 to 6 and the RIGHT_SHOULDER branch
    takes joint 6 to 1. *)
Theorem joint_ring (l : list (Signals * list Q)) (mc : MyCobot) :
  1 <= joint mc <= 6 ->
  length l = 6%nat ->
  (Forall (fun t => selects "LEFT_SHOULDER" t.1) l ->
     joint (updates l mc) = joint mc) /\
  (Forall (fun t => selects "RIGHT_SHOULDER" t.1) l ->
     joint (updates l mc) = joint mc) /\
  (forall signals reported, selects "LEFT_SHOULDER" signals -> joint mc = 1 ->
     joint (exec (update signals reported) mc) = 6) /\
  (forall signals reported, selects "RIGHT_SHOULDER" signals -> joint mc = 6 ->
     joint (exec (update signals reported) mc) = 1).
Proof.
  intros Hj Hlen. repeat split.
  - intros Hl. rewrite (updates_LEFT_SHOULDER l mc Hl), Hlen.
    destruct (joint_cases _ Hj) as [E|[E|[E|[E|[E|E]]]]]; rewrite E; reflexivity.
  - intros Hl. rewrite (updates_RIGHT_SHOULDER l mc Hl), Hlen.
    destruct (joint_cases _ Hj) as [E|[E|[E|[E|[E|E]]]]]; rewrite E; reflexivity.
  - intros signals reported Hs E. unfold exec.
    rewrite (update_LEFT_SHOULDER _ _ _ Hs), E. reflexivity.
  - intros signals reported Hs E. unfold exec.
    rewrite (update_RIGHT_SHOULDER _ _ _ Hs), E. reflexivity.
Qed.

(** ** Rounding to binary64 is monotone *)

Lemma pow2_pos e : (0 < pow2 e)%Q.
Proof. unfold pow2. apply Qpower_0_lt. reflexivity. Qed.

Lemma pow2_add a b : (pow2 (a + b) == pow2 a * pow2 b)%Q.
Proof. unfold pow2. apply Qpower_plus. discriminate. Qed.

Lemma pow2_le a b : a <= b -> (pow2 a <= pow2 b)%Q.
Proof. intros H. unfold pow2. apply Qpower_le_compat_l; [exact H|discriminate]. Qed.

Lemma pow2_0 : (pow2 0 == 1)%Q.
Proof. reflexivity. Qed.

Lemma pow2_cancel e : (pow2 (- e) * pow2 e == 1)%Q.
Proof. rewrite <- pow2_add. replace (- e + e) with 0 by lia. reflexivity. Qed.

Lemma pow2_Z n : 0 <= n -> (pow2 n == inject_Z (2 ^ n))%Q.
Proof. intros H. unfold pow2. symmetry. apply (Zpower_Qpower 2 n H). Qed.

(** Scaling by a power of two and back. *)
Lemma scale_back q e : (q * pow2 (- e) * pow2 e == q)%Q.
Proof. rewrite <- Qmult_assoc, pow2_cancel. apply Qmult_1_r. Qed.

Lemma scale_le x y e : (x <= y)%Q -> (x * pow2 e <= y * pow2 e)%Q.
Proof. intros H. apply Qmult_le_compat_r; [exact H|]. apply Qlt_le_weak, pow2_pos. Qed.

Lemma scale_lt x y e : (x < y)%Q -> (x * pow2 e < y * pow2 e)%Q.
Proof. intros H. apply Qmult_lt_compat_r; [apply pow2_pos|exact H]. Qed.

Lemma rne_bounds q : Qfloor q <= rne q <= Qfloor q + 1.
Proof.
  unfold rne. destruct (q - inject_Z (Qfloor q) ?= 1 # 2)%Q; try lia.
  destruct (Z.even (Qfloor q)); lia.
Qed.

Lemma rne_Z n : rne (inject_Z n) = n.
Proof.
  unfold rne. rewrite Qfloor_Z.
  assert (E : (inject_Z n - inject_Z n ?= 1 # 2)%Q = Lt).
  { apply (proj1 (Qlt_alt _ _)). generalize (inject_Z n). intros x. lra. }
  now rewrite E.
Qed.

Lemma rne_le a b : (a <= b)%Q -> rne a <= rne b.
Proof.
  intros H. pose proof (Qfloor_resp_le _ _ H) as Hf.
  destruct (Z.eq_dec (Qfloor a) (Qfloor b)) as [E|N].
  - unfold rne. rewrite E.
    destruct (a - inject_Z (Qfloor b) ?= 1 # 2)%Q eqn:Ca;
      destruct (b - inject_Z (Qfloor b) ?= 1 # 2)%Q eqn:Cb;
      try (destruct (Z.even (Qfloor b))); try lia; exfalso;
      repeat match goal with
             | C : (_ ?= _)%Q = Eq |- _ => apply (proj2 (Qeq_alt _ _)) in C
             | C : (_ ?= _)%Q = Lt |- _ => apply (proj2 (Qlt_alt _ _)) in C
             | C : (_ ?= _)%Q = Gt |- _ => apply (proj2 (Qgt_alt _ _)) in C
             end; lra.
  - pose proof (rne_bounds a). pose proof (rne_bounds b). lia.
Qed.

Lemma Qnum_pos q : (0 < q)%Q -> 0 < Qnum q.
Proof. destruct q as [n d]. unfold Qlt. simpl. lia. Qed.

Lemma Q_as_fraction q : (q == inject_Z (Qnum q) / inject_Z (Zpos (Qden q)))%Q.
Proof. destruct q as [n d]. simpl. rewrite Qmake_Qdiv. reflexivity. Qed.

Lemma ilog2_guess q :
  (0 < q)%Q ->
  let k := Z.log2 (Qnum q) - Z.log2 (Zpos (Qden q)) in
  (pow2 (k - 1) < q < pow2 (k + 1))%Q.
Proof.
  intros Hq k. pose proof (Qnum_pos q Hq) as Hn.
  set (a := Z.log2 (Qnum q)) in *. set (b := Z.log2 (Zpos (Qden q))) in *.
  assert (Ha : 2 ^ a <= Qnum q < 2 ^ (a + 1)).
  { replace (a + 1) with (Z.succ a) by lia. apply Z.log2_spec. exact Hn. }
  assert (Hb : 2 ^ b <= Zpos (Qden q) < 2 ^ (b + 1)).
  { replace (b + 1) with (Z.succ b) by lia. apply Z.log2_spec. lia. }
  assert (Ha0 : 0 <= a) by apply Z.log2_nonneg.
  assert (Hb0 : 0 <= b) by apply Z.log2_nonneg.
  assert (Hd : (0 < inject_Z (Zpos (Qden q)))%Q) by reflexivity.
  assert (Qa : (pow2 a <= inject_Z (Qnum q))%Q).
  { rewrite (pow2_Z a Ha0). rewrite <- Zle_Qle. lia. }
  assert (Qa' : (inject_Z (Qnum q) < pow2 (a + 1))%Q).
  { rewrite (pow2_Z (a + 1)) by lia. rewrite <- Zlt_Qlt. lia. }
  assert (Qb : (pow2 b <= inject_Z (Zpos (Qden q)))%Q).
  { rewrite (pow2_Z b Hb0). rewrite <- Zle_Qle. lia. }
  assert (Qb' : (inject_Z (Zpos (Qden q)) < pow2 (b + 1))%Q).
  { rewrite (pow2_Z (b + 1)) by lia. rewrite <- Zlt_Qlt. lia. }
  rewrite (Q_as_fraction q) at 1 2.
  split.
  - apply Qlt_shift_div_l; [exact Hd|].
    (* pow2 (k-1) * d < n, from d < pow2 (b+1) and pow2 a <= n *)
    apply Qlt_le_trans with (pow2 (k - 1) * pow2 (b + 1))%Q.
    + apply Qmult_lt_l; [apply pow2_pos|exact Qb'].
    + rewrite <- pow2_add. replace (k - 1 + (b + 1)) with a by (unfold k; lia).
      exact Qa.
  - apply Qlt_shift_div_r; [exact Hd|].
    apply Qlt_le_trans with (pow2 (k + 1) * pow2 b)%Q.
    + rewrite <- pow2_add. replace (k + 1 + b) with (a + 1) by (unfold k; lia).
      exact Qa'.
    + apply Qmult_le_l; [apply pow2_pos|exact Qb].
Qed.

Lemma ilog2_spec q :
  (0 < q)%Q -> (pow2 (ilog2 q) <= q < pow2 (ilog2 q + 1))%Q.
Proof.
  intros Hq. pose proof (ilog2_guess q Hq) as H. cbv zeta in H.
  unfold ilog2.
  set (k := Z.log2 (Qnum q) - Z.log2 (Zpos (Qden q))) in *.
  destruct (Qle_bool (pow2 k) q) eqn:E.
  - apply Qle_bool_iff in E. split; [exact E|apply H].
  - assert (E' : ~ (pow2 k <= q)%Q).
    { intros C. apply Qle_bool_iff in C. congruence. }
    apply Qnot_le_lt in E'. replace (k - 1 + 1) with k by lia.
    split; [apply Qlt_le_weak, H|exact E'].
Qed.

Lemma ilog2_le x y : (0 < x)%Q -> (x <= y)%Q -> ilog2 x <= ilog2 y.
Proof.
  intros Hx Hxy.
  assert (Hy : (0 < y)%Q) by lra.
  destruct (ilog2_spec x Hx) as [Lx _]. destruct (ilog2_spec y Hy) as [_ Uy].
  destruct (Z_le_gt_dec (ilog2 x) (ilog2 y)) as [L|G]; [exact L|exfalso].
  assert (P : (pow2 (ilog2 y + 1) <= pow2 (ilog2 x))%Q) by (apply pow2_le; lia).
  lra.
Qed.

Lemma round_positive_le x y :
  (0 < x)%Q -> (x <= y)%Q -> (round_positive x <= round_positive y)%Q.
Proof.
  intros Hx Hxy. assert (Hy : (0 < y)%Q) by lra.
  pose proof (ilog2_le x y Hx Hxy) as Hl.
  unfold round_positive.
  set (ex := Z.max (ilog2 x) (-1022) - 52).
  set (ey := Z.max (ilog2 y) (-1022) - 52).
  assert (Hex : ex <= ey) by (unfold ex, ey; lia).
  destruct (Z.eq_dec ex ey) as [E|N].
  - rewrite E. apply Qmult_le_compat_r; [|apply Qlt_le_weak, pow2_pos].
    rewrite <- Zle_Qle. apply rne_le. now apply scale_le.
  - assert (Ely : ey = ilog2 y - 52) by (unfold ex, ey in *; lia).
    destruct (ilog2_spec x Hx) as [_ Ux]. destruct (ilog2_spec y Hy) as [Ly _].
    apply Qle_trans with (pow2 (ex + 53)).
    + (* x < 2^(ex+53), so the mantissa is at most 2^53 *)
      assert (Hm : rne (x * pow2 (- ex)) <= 2 ^ 53).
      { rewrite <- (rne_Z (2 ^ 53)). apply rne_le.
        rewrite <- (pow2_Z 53) by lia.
        apply Qle_trans with (pow2 (ex + 53) * pow2 (- ex))%Q.
        - apply scale_le. apply Qlt_le_weak.
          apply Qlt_le_trans with (pow2 (ilog2 x + 1)); [exact Ux|].
          apply pow2_le. unfold ex. lia.
        - rewrite <- pow2_add. replace (ex + 53 + - ex) with 53 by lia.
          apply Qle_refl. }
      replace (ex + 53) with (53 + ex) by lia.
      rewrite (pow2_add 53 ex), (pow2_Z 53) by lia.
      apply Qmult_le_compat_r; [|apply Qlt_le_weak, pow2_pos].
      rewrite <- Zle_Qle. exact Hm.
    + apply Qle_trans with (pow2 (ey + 52)); [apply pow2_le; lia|].
      assert (Hm : 2 ^ 52 <= rne (y * pow2 (- ey))).
      { rewrite <- (rne_Z (2 ^ 52)). apply rne_le.
        rewrite <- (pow2_Z 52) by lia.
        apply Qle_trans with (pow2 (ey + 52) * pow2 (- ey))%Q.
        - rewrite <- pow2_add. replace (ey + 52 + - ey) with 52 by lia.
          apply Qle_refl.
        - apply scale_le. replace (ey + 52) with (ilog2 y) by lia. exact Ly. }
      replace (ey + 52) with (52 + ey) by lia.
      rewrite (pow2_add 52 ey), (pow2_Z 52) by lia.
      apply Qmult_le_compat_r; [|apply Qlt_le_weak, pow2_pos].
      rewrite <- Zle_Qle. exact Hm.
Qed.

Lemma round_positive_nonneg x : (0 < x)%Q -> (0 <= round_positive x)%Q.
Proof.
  intros Hx. unfold round_positive.
  apply Qmult_le_0_compat; [|apply Qlt_le_weak, pow2_pos].
  change 0%Q with (inject_Z 0). rewrite <- Zle_Qle.
  rewrite <- (rne_Z 0). apply rne_le.
  apply Qmult_le_0_compat; [lra|apply Qlt_le_weak, pow2_pos].
Qed.

Lemma binary64_le x y : (x <= y)%Q -> (binary64 x <= binary64 y)%Q.
Proof.
  intros H. unfold binary64.
  destruct (x ?= 0)%Q eqn:Cx; destruct (y ?= 0)%Q eqn:Cy;
    repeat match goal with
           | C : (_ ?= _)%Q = Eq |- _ => apply (proj2 (Qeq_alt _ _)) in C
           | C : (_ ?= _)%Q = Lt |- _ => apply (proj2 (Qlt_alt _ _)) in C
           | C : (_ ?= _)%Q = Gt |- _ => apply (proj2 (Qgt_alt _ _)) in C
           end;
    rewrite ?Qred_correct;
    try (assert (0 <= round_positive y)%Q
           by (apply round_positive_nonneg; lra));
    try (assert (0 <= round_positive x)%Q
           by (apply round_positive_nonneg; lra));
    try (assert (0 <= round_positive (- y))%Q
           by (apply round_positive_nonneg; lra));
    try (assert (0 <= round_positive (- x))%Q
           by (apply round_positive_nonneg; lra));
    try (assert (round_positive (- y) <= round_positive (- x))%Q
           by (apply round_positive_le; lra));
    try (assert (round_positive x <= round_positive y)%Q
           by (apply round_positive_le; lra));
    lra.
Qed.

(** ** The rotation of joint 6 *)

Lemma py_getitem_lookup {A} (l : list A) (n : nat) (a : A) :
  l !! n = Some a -> py_getitem l (Z.of_nat n) = Some a.
Proof.
  intros H. pose proof (lookup_lt_Some _ _ _ H) as Hlt.
  unfold py_getitem, py_index.
  destruct (Z.of_nat n <? 0) eqn:E1; [lia|].
  destruct (0 <=? Z.of_nat n) eqn:E2; [|lia].
  destruct (Z.of_nat n <? Z.of_nat (length l)) eqn:E3; [|lia].
  simpl. now rewrite Nat2Z.id.
Qed.

Lemma update_DPAD_LEFT_6 signals reported mc theta :
  selects "DPAD_LEFT" signals ->
  joint mc = 6 ->
  reported !! 5%nat = Some theta ->
  update signals reported mc =
    (Ret tt, mc, [get_angles; send_angle 6 (wrap_negative theta) 10; print_joint 6]).
Proof.
  intros [Hc H] Hj Hr. split_priority H. enter_update Hc.
  apply (py_getitem_lookup _ 5%nat) in Hr.
  unfold bind, get, getitem, wrap_negative. cbn [fst snd]. rewrite Hj.
  change (6 =? 6) with true. change (6 - 1) with (Z.of_nat 5). cbv iota.
  unfold emit at 1. rewrite Hr. unfold ret at 1.
  destruct (Qlt_le_dec (binary64 (theta - 179)) (-180));
    cbv [ret emit app]; rewrite Hj; reflexivity.
Qed.

Lemma update_DPAD_RIGHT_6 signals reported mc theta :
  selects "DPAD_RIGHT" signals ->
  joint mc = 6 ->
  reported !! 5%nat = Some theta ->
  update signals reported mc =
    (Ret tt, mc, [get_angles; send_angle 6 (wrap_positive theta) 10; print_joint 6]).
Proof.
  intros [Hc H] Hj Hr. split_priority H. enter_update Hc.
  apply (py_getitem_lookup _ 5%nat) in Hr.
  unfold bind, get, getitem, wrap_positive. cbn [fst snd]. rewrite Hj.
  change (6 =? 6) with true. change (6 - 1) with (Z.of_nat 5). cbv iota.
  unfold emit at 1. rewrite Hr. unfold ret at 1.
  destruct (Qlt_le_dec 180 (binary64 (theta + 179)));
    cbv [ret emit app]; rewrite Hj; reflexivity.
Qed.

Lemma binary64_between lo hi x :
  binary64 lo = lo -> binary64 hi = hi ->
  (lo <= x <= hi)%Q -> (lo <= binary64 x <= hi)%Q.
Proof.
  intros El Eh [H1 H2]. split.
  - apply Qle_trans with (binary64 lo); [rewrite El; apply Qle_refl|].
    now apply binary64_le.
  - apply Qle_trans with (binary64 hi); [|rewrite Eh; apply Qle_refl].
    now apply binary64_le.
Qed.

Lemma wrap_negative_range theta :
  (-180 <= theta <= 180)%Q -> (-180 <= wrap_negative theta <= 180)%Q.
Proof.
  intros [H1 H2]. unfold wrap_negative.
  assert (B : (-359 <= binary64 (theta - 179) <= 1)%Q).
  { apply binary64_between; [reflexivity|reflexivity|split; lra]. }
  destruct (Qlt_le_dec (binary64 (theta - 179)) (-180)) as [Hlt|Hge].
  - assert (B2 : (1 <= binary64 (binary64 (theta - 179) + 360) <= 180)%Q).
    { apply binary64_between; [reflexivity|reflexivity|split; lra]. }
    split; lra.
  - split; lra.
Qed.

Lemma wrap_positive_range theta :
  (-180 <= theta <= 180)%Q -> (-180 <= wrap_positive theta <= 180)%Q.
Proof.
  intros [H1 H2]. unfold wrap_positive.
  assert (B : (-1 <= binary64 (theta + 179) <= 359)%Q).
  { apply binary64_between; [reflexivity|reflexivity|split; lra]. }
  destruct (Qlt_le_dec 180 (binary64 (theta + 179))) as [Hlt|Hge].
  - assert (B2 : (-180 <= binary64 (binary64 (theta + 179) - 360) <= -1)%Q).
    { apply binary64_between; [reflexivity|reflexivity|split; lra]. }
    split; lra.
  - split; lra.
Qed.

(** C5, as the code has it: with joint 6 selected and the actuator
    reporting the angle [theta] in [-180, 180] for it, the DPAD_LEFT branch
    asks for the angles, then sends joint 6 to the float [theta - 179], with
    360 added once, in floats again, when that float is below -180; the
    DPAD_RIGHT branch sends it to the float [theta + 179], with 360
    subtracted once when that float is above 180.  Both angles lie in
    [-180, 180], and it is the only command of the call. *)
Theorem joint6_wrap signals reported mc theta :
  joint mc = 6 ->
  reported !! 5%nat = Some theta ->
  (-180 <= theta <= 180)%Q ->
  (selects "DPAD_LEFT" signals ->
     exists target,
       update signals reported mc =
         (Ret tt, mc, [get_angles; send_angle 6 target 10; print_joint 6]) /\
       ((binary64 (theta - 179) < -180)%Q ->
        target = binary64 (binary64 (theta - 179) + 360)) /\
       (~ (binary64 (theta - 179) < -180)%Q ->
        target = binary64 (theta - 179)) /\
       (-180 <= target <= 180)%Q) /\
  (selects "DPAD_RIGHT" signals ->
     exists target,
       update signals reported mc =
         (Ret tt, mc, [get_angles; send_angle 6 target 10; print_joint 6]) /\
       ((180 < binary64 (theta + 179))%Q ->
        target = binary64 (binary64 (theta + 179) - 360)) /\
       (~ (180 < binary64 (theta + 179))%Q ->
        target = binary64 (theta + 179)) /\
       (-180 <= target <= 180)%Q).
Proof.
  intros Hj Hr Hth. split; intros Hs.
  - exists (wrap_negative theta). split.
    { now apply update_DPAD_LEFT_6. }
    split; [|split].
    + intros Hlt. unfold wrap_negative.
      destruct (Qlt_le_dec (binary64 (theta - 179)) (-180)); [reflexivity | lra].
    + intros Hge. unfold wrap_negative.
      destruct (Qlt_le_dec (binary64 (theta - 179)) (-180));
        [contradiction | reflexivity].
    + now apply wrap_negative_range.
  - exists (wrap_positive theta). split.
    { now apply update_DPAD_RIGHT_6. }
    split; [|split].
    + intros Hlt. unfold wrap_positive.
      destruct (Qlt_le_dec 180 (binary64 (theta + 179))); [reflexivity | lra].
    + intros Hge. unfold wrap_positive.
      destruct (Qlt_le_dec 180 (binary64 (theta + 179)));
        [contradiction | reflexivity].
    + now apply wrap_positive_range.
Qed.

(** C5, as the claim has it, fails.  The code computes in floats: for
    the reported angle 0.01 it sends the float nearest to 0.01 - 179, which
    is not 0.01 - 179; for the float just below -1 the difference with 179
    is below -180, but it rounds to -180, which is not below -180, so that
    the code sends -180 and adds no 360. *)
Lemma joint6_sends_rounded_angle :
  binary64 float_0_01 = float_0_01 /\
  (-180 <= float_0_01 <= 180)%Q /\
  update (snapshot ["DPAD_LEFT"%string])
    [0%Q; 0%Q; 0%Q; 0%Q; 0%Q; float_0_01] at_joint_6 =
    (Ret tt, at_joint_6,
     [get_angles; send_angle 6 (-787206345022505 # 4398046511104)%Q 10;
      print_joint 6]) /\
  ~ (float_0_01 - 179 < -180)%Q /\
  ~ ((-787206345022505 # 4398046511104) == float_0_01 - 179)%Q /\
  binary64 float_below_minus_1 = float_below_minus_1 /\
  (-180 <= float_below_minus_1 <= 180)%Q /\
  update (snapshot ["DPAD_LEFT"%string])
    [0%Q; 0%Q; 0%Q; 0%Q; 0%Q; float_below_minus_1] at_joint_6 =
    (Ret tt, at_joint_6, [get_angles; send_angle 6 (-180)%Q 10; print_joint 6]) /\
  (float_below_minus_1 - 179 < -180)%Q /\
  ~ (-180 == float_below_minus_1 - 179 + 360)%Q.
Proof.
  repeat split; try reflexivity; vm_compute; discriminate.
Qed.

(** ** How many commands a snapshot issues *)

Ltac run_steps :=
  cbv [trace result exec commands bind get put emit ret raise set_joint
       next_color getitem fst snd app List.filter is_command length].

(** Runs the selected branch of [update], splitting on the tests it makes. *)
Ltac run_branch :=
  run_steps;
  repeat (match goal with
          | |- context [next_rgb ?c] => destruct (next_rgb c) as [[? ?] ?]
          | |- context [if ?j =? ?k then _ else _] => destruct (j =? k)
          | |- context [py_getitem ?l ?i] => destruct (py_getitem l i)
          | |- context [Qlt_le_dec ?a ?b] => destruct (Qlt_le_dec a b)
          end; run_steps).

(** C3, as the code has it: a snapshot with a button pressed that does
    not end the program issues at most one command.  It issues exactly one
    when the first pressed button in priority order is A, B, X, Y, DPAD_LEFT
    or DPAD_RIGHT and [update] returns; it issues none when that button is
    LEFT_SHOULDER or RIGHT_SHOULDER, which only change the selected joint,
    and none when no button of the priority list is pressed. *)
Theorem update_commands signals reported mc :
  (0 < size (buttons signals))%nat ->
  _get_combination_action signals = None ->
  (length (commands (trace (update signals reported) mc)) <= 1)%nat /\
  (forall b, first_pressed signals = Some b ->
     In b ["A"; "B"; "X"; "Y"; "DPAD_LEFT"; "DPAD_RIGHT"]%string ->
     result (update signals reported) mc = Ret tt ->
     length (commands (trace (update signals reported) mc)) = 1%nat) /\
  (forall b, first_pressed signals = Some b ->
     In b ["LEFT_SHOULDER"; "RIGHT_SHOULDER"]%string ->
     commands (trace (update signals reported) mc) = []) /\
  (first_pressed signals = None ->
     commands (trace (update signals reported) mc) = []).
Proof.
  intros Hs Hc.
  destruct (first_pressed signals) as [b|] eqn:H.
  - pose proof H as H'. split_priority H; injection H as <-;
      enter_update Hc; run_branch;
      (split; [lia|]); (split; [|split]);
      try discriminate;
      try (intros b Hb Hin; injection Hb as <-; simpl in Hin;
           first [ reflexivity | discriminate
                 | intuition discriminate ]).
  - unfold trace, result.
    rewrite (update_none_pressed _ _ _ Hs Hc H). unfold commands. simpl.
    split; [lia|]. split; [discriminate|]. split; [discriminate|reflexivity].
Qed.

(** C3, as the claim has it, fails: with LEFT_SHOULDER alone pressed
    the snapshot is neither idle nor the combination, and [update] selects
    the previous joint without any command to the actuator. *)
Lemma update_LEFT_SHOULDER_no_command :
  (0 < size (buttons (snapshot ["LEFT_SHOULDER"%string])))%nat /\
  _get_combination_action (snapshot ["LEFT_SHOULDER"%string]) = None /\
  update (snapshot ["LEFT_SHOULDER"%string]) [] init_MyCobot =
    (Ret tt, {| color := (0, 255, 0); joint := 6 |}, [print_joint 6]) /\
  length (commands (trace (update (snapshot ["LEFT_SHOULDER"%string]) [])
                      init_MyCobot)) <> 1%nat.
Proof.
  split; [vm_compute; lia|]. split; [reflexivity|]. split; [reflexivity|].
  vm_compute. discriminate.
Qed.

(** ** The termination combination *)

Lemma update_combination signals reported mc :
  "LEFT_SHOULDER"%string ∈ buttons signals ->
  "RIGHT_SHOULDER"%string ∈ buttons signals ->
  "START"%string ∈ buttons signals ->
  "BACK"%string ∈ buttons signals ->
  update signals reported mc = (Raise (KeyboardInterrupt ""), mc, []).
Proof.
  intros H1 H2 H3 H4.
  assert (E1 : pressed "LEFT_SHOULDER" signals = true) by now apply bool_decide_eq_true.
  assert (E2 : pressed "RIGHT_SHOULDER" signals = true) by now apply bool_decide_eq_true.
  assert (E3 : pressed "START" signals = true) by now apply bool_decide_eq_true.
  assert (E4 : pressed "BACK" signals = true) by now apply bool_decide_eq_true.
  unfold update, _get_combination_action.
  rewrite (pressed_size _ _ E1), E1, E2, E3, E4. reflexivity.
Qed.

Lemma notify_combination self reported h o os mc signals :
  observers self = o :: os ->
  h !! o = Some (PyCobot mc) ->
  read_signals h (signals_of self) = Some signals ->
  "LEFT_SHOULDER"%string ∈ buttons signals ->
  "RIGHT_SHOULDER"%string ∈ buttons signals ->
  "START"%string ∈ buttons signals ->
  "BACK"%string ∈ buttons signals ->
  notify self reported h = (Raise (KeyboardInterrupt ""), h, []).
Proof.
  intros Ho Hmc Hr H1 H2 H3 H4.
  unfold notify. rewrite Ho. cbn [Subject_notify].
  unfold bind at 1. unfold observer_update.
  unfold bind at 1. unfold get at 1. rewrite Hr.
  unfold on_cobot. rewrite Hmc.
  rewrite (update_combination _ _ _ H1 H2 H3 H4).
  rewrite (insert_id h o _ Hmc). reflexivity.
Qed.

(** Once the loop of [run] has been left, a longer schedule changes
    nothing. *)
Lemma run_loop_left self l rest : forall alive h,
  result (run_loop self alive l) h <> Pending ->
  run_loop self alive (l ++ rest) h = run_loop self alive l h.
Proof.
  induction l as [|t l IH]; intros alive h Hleft.
  - exfalso. apply Hleft. reflexivity.
  - revert Hleft. unfold result. cbn [run_loop app].
    destruct (detector_turn self alive (incoming t) h) as [alive' h'].
    unfold bind, emit.
    destruct (notify self (reported t) h') as [[[a|e|] h1] t1]; try reflexivity.
    intros Hleft.
    rewrite (IH alive' h1); [reflexivity|].
    unfold result. intros E. apply Hleft.
    destruct (run_loop self alive' l h1) as [[r h2] t2]. simpl in *. now subst.
Qed.

Lemma run_loop_app self pre post : forall alive h alive1 h1,
  loop_state self alive pre h = Some (alive1, h1) ->
  run_loop self alive (pre ++ post) h =
    match run_loop self alive1 post h1 with
    | (r, h2, t2) => (r, h2, trace (run_loop self alive pre) h ++ t2)
    end.
Proof.
  induction pre as [|t pre IH]; intros alive h alive1 h1 Hst.
  - cbn [loop_state] in Hst. injection Hst as -> ->. cbn [app].
    now destruct (run_loop self alive1 post h1) as [[r h2] t2].
  - cbn [loop_state] in Hst. unfold trace. cbn [app run_loop].
    destruct (detector_turn self alive (incoming t) h) as [alive' h'].
    unfold bind, emit in *.
    destruct (notify self (reported t) h') as [[[[]|e|] k1] t1];
      try discriminate Hst.
    rewrite (IH _ _ _ _ Hst). unfold trace.
    destruct (run_loop self alive1 post h1) as [[r h2] t2].
    destruct (run_loop self alive' pre k1) as [[r3 h3] t3].
    cbn [fst snd app]. rewrite <- app_assoc. reflexivity.
Qed.

(** C2: a snapshot with LEFT_SHOULDER, RIGHT_SHOULDER, START and BACK
    all pressed makes [update] raise KeyboardInterrupt with no call at all
    and the controller unchanged.  At whatever turn of the clock loop such
    a snapshot is published, [run] leaves the loop there and returns:
    [keyboard_interrupt] holds the exception, the other fields of the
    adapter are unchanged, the heap is the one of that turn, and the calls
    are those of the turns before; no later snapshot is processed, whatever
    the rest of the schedule is; and once [run] has been left, a longer
    schedule adds nothing. *)
Theorem combination_ends_program self pre t rest h alive1 h1 o os mc signals :
  observers self = o :: os ->
  loop_state self true pre h = Some (alive1, h1) ->
  (detector_turn self alive1 (incoming t) h1).2 !! o = Some (PyCobot mc) ->
  read_signals (detector_turn self alive1 (incoming t) h1).2 (signals_of self)
    = Some signals ->
  "LEFT_SHOULDER"%string ∈ buttons signals ->
  "RIGHT_SHOULDER"%string ∈ buttons signals ->
  "START"%string ∈ buttons signals ->
  "BACK"%string ∈ buttons signals ->
  update signals (reported t) mc = (Raise (KeyboardInterrupt ""), mc, []) /\
  run self (pre ++ t :: rest) h =
    (Returned,
     {| pressed_button := pressed_button self;
        trigger_values := trigger_values self;
        stick_values := stick_values self;
        observers := observers self;
        keyboard_interrupt := Some (KeyboardInterrupt "") |},
     (detector_turn self alive1 (incoming t) h1).2,
     trace (run_loop self true pre) h) /\
  keyboard_interrupt (run self (pre ++ t :: rest) h).1.1.2 =
    Some (KeyboardInterrupt "") /\
  run self (pre ++ t :: rest) h = run self (pre ++ [t]) h /\
  (forall pre' more h0,
     (run self pre' h0).1.1.1 <> Looping ->
     run self (pre' ++ more) h0 = run self pre' h0).
Proof.
  intros Ho Hst Hmc Hr H1 H2 H3 H4.
  assert (Turn : forall more,
    run self (pre ++ t :: more) h =
      (Returned,
       {| pressed_button := pressed_button self;
          trigger_values := trigger_values self;
          stick_values := stick_values self;
          observers := observers self;
          keyboard_interrupt := Some (KeyboardInterrupt "") |},
       (detector_turn self alive1 (incoming t) h1).2,
       trace (run_loop self true pre) h)).
  { intros more. unfold run.
    rewrite (run_loop_app self pre (t :: more) true h alive1 h1 Hst).
    cbn [run_loop].
    destruct (detector_turn self alive1 (incoming t) h1) as [alive' h'].
    cbn [snd] in Hmc, Hr. unfold bind at 1.
    rewrite (notify_combination self (reported t) h' o os mc signals
               Ho Hmc Hr H1 H2 H3 H4).
    unfold store_interrupt. now rewrite app_nil_r. }
  split; [now apply update_combination|].
  split; [apply Turn|].
  split; [now rewrite Turn|].
  split; [now rewrite !Turn|].
  intros pre' more h0 Hleft. unfold run in *.
  rewrite run_loop_left; [reflexivity|].
  unfold result. intros E.
  destruct (run_loop self true pre' h0) as [[r h2] t2]. simpl in E. subst r.
  apply Hleft. reflexivity.
Qed.

(** ** Events that do not fit the recorded state *)

Lemma adapter_update_release_absent self e h s b :
  user_index e = 0 ->
  type e = EVENT_BUTTON_RELEASED b ->
  h !! pressed_button self = Some (PySet s) ->
  b ∉ s ->
  adapter_update self e h = (Raise (KeyError b), h, []).
Proof.
  intros Hu Ht Hs Hb. unfold adapter_update. rewrite Hu, Ht. simpl.
  unfold bind, get. rewrite Hs.
  rewrite (bool_decide_eq_false_2 _ Hb). reflexivity.
Qed.

(** C7: a release event of controller 0 for a button that is not in
    the set of pressed buttons makes the adapter's [update] raise
    [KeyError] on that button, the heap unchanged; the exception is not
    caught by [Joystick_Detector.run], whose loop ends there, before any
    later event is handled. *)
Theorem release_of_unpressed_raises self e h s b :
  user_index e = 0 ->
  type e = EVENT_BUTTON_RELEASED b ->
  h !! pressed_button self = Some (PySet s) ->
  b ∉ s ->
  adapter_update self e h = (Raise (KeyError b), h, []) /\
  (forall later, detector_run [self] (e :: later) h = (Raise (KeyError b), h, [])) /\
  (forall later, detector_turn self true (e :: later) h = (false, h)).
Proof.
  intros Hu Ht Hs Hb.
  pose proof (adapter_update_release_absent self e h s b Hu Ht Hs Hb) as E.
  split; [exact E|]. split; intros later.
  - cbn [detector_run detector_dispatch]. unfold bind. rewrite E. reflexivity.
  - unfold detector_turn. cbn [detector_run detector_dispatch].
    unfold bind. rewrite E. reflexivity.
Qed.

(** ** The published snapshot and the adapter's objects *)

Lemma read_signals_inv h d s :
  read_signals h d = Some s ->
  h !! buttons_ref d = Some (PySet (buttons s)) /\
  h !! triggers_ref d = Some (PyNums (triggers s)) /\
  h !! sticks_ref d = Some (PyPairs (sticks s)).
Proof.
  unfold read_signals.
  destruct (h !! buttons_ref d) as [[]|]; try discriminate;
    destruct (h !! triggers_ref d) as [[]|]; try discriminate;
    destruct (h !! sticks_ref d) as [[]|]; try discriminate.
  intros [= <-]. auto.
Qed.

Lemma read_signals_distinct h d s :
  read_signals h d = Some s ->
  buttons_ref d <> triggers_ref d /\
  buttons_ref d <> sticks_ref d /\
  triggers_ref d <> sticks_ref d.
Proof.
  intros H. destruct (read_signals_inv _ _ _ H) as (Hb & Ht & Hs).
  repeat split; intros E; rewrite E in *; congruence.
Qed.

(** What a holder of the dictionary reads once an object of the heap has
    been replaced. *)
Lemma read_signals_buttons h d s x :
  read_signals h d = Some s ->
  read_signals (<[buttons_ref d := PySet x]> h) d =
    Some {| buttons := x; triggers := triggers s; sticks := sticks s |}.
Proof.
  intros H. destruct (read_signals_distinct _ _ _ H) as (N1 & N2 & N3).
  destruct (read_signals_inv _ _ _ H) as (Hb & Ht & Hs).
  unfold read_signals.
  rewrite lookup_insert_eq, !lookup_insert_ne, Ht, Hs by done. reflexivity.
Qed.

Lemma read_signals_triggers h d s x :
  read_signals h d = Some s ->
  read_signals (<[triggers_ref d := PyNums x]> h) d =
    Some {| buttons := buttons s; triggers := x; sticks := sticks s |}.
Proof.
  intros H. destruct (read_signals_distinct _ _ _ H) as (N1 & N2 & N3).
  destruct (read_signals_inv _ _ _ H) as (Hb & Ht & Hs).
  unfold read_signals.
  rewrite lookup_insert_eq, !lookup_insert_ne, Hb, Hs by done. reflexivity.
Qed.

Lemma read_signals_sticks h d s x :
  read_signals h d = Some s ->
  read_signals (<[sticks_ref d := PyPairs x]> h) d =
    Some {| buttons := buttons s; triggers := triggers s; sticks := x |}.
Proof.
  intros H. destruct (read_signals_distinct _ _ _ H) as (N1 & N2 & N3).
  destruct (read_signals_inv _ _ _ H) as (Hb & Ht & Hs).
  unfold read_signals.
  rewrite lookup_insert_eq, !lookup_insert_ne, Hb, Ht by done. reflexivity.
Qed.

Lemma detector_turn_nil self alive h :
  detector_turn self alive [] h = (alive, h).
Proof. unfold detector_turn. now destruct alive. Qed.

Lemma Subject_notify_during_nil self observers obj reported : forall alive h,
  Subject_notify_during self alive observers obj reported [] h =
    Subject_notify observers obj reported h.
Proof.
  induction observers as [|o observers IH]; intros alive h; [reflexivity|].
  cbn [Subject_notify_during Subject_notify hd tl].
  rewrite detector_turn_nil. unfold bind.
  destruct (observer_update o obj reported h) as [[[[]|e|] h1] t1];
    try reflexivity.
  now rewrite IH.
Qed.

(** C8, as the code has it: the dictionary [notify] publishes holds
    the adapter's own set and lists, not copies.  With no event arriving
    meanwhile, the interleaved [notify] is [notify].  With events handled
    by the adapter's [update] after the dictionary was built and before
    the first listener reads it, that listener's [update] acts on the
    adapter's state after these events, not on the state at publication:
    a button pressed in between is pressed for the listener. *)
Theorem snapshot_shares_state self alive reported events h o os mc :
  observers self = o :: os ->
  (detector_turn self alive events h).2 !! o = Some (PyCobot mc) ->
  (forall alive', notify_during self alive' reported [] h = notify self reported h) /\
  (forall s',
     read_signals (detector_turn self alive events h).2 (signals_of self)
       = Some s' ->
     notify_during self alive reported [events] h =
       (on_cobot o (update s' reported) ;;;
        Subject_notify os (signals_of self) reported)
         (detector_turn self alive events h).2) /\
  (forall s b,
     read_signals h (signals_of self) = Some s ->
     alive = true -> events = [press b] ->
     notify_during self alive reported [events] h =
       (on_cobot o (update {| buttons := {[ b ]} ∪ buttons s;
                              triggers := triggers s;
                              sticks := sticks s |} reported) ;;;
        Subject_notify os (signals_of self) reported)
         (<[pressed_button self := PySet ({[ b ]} ∪ buttons s)]> h)).
Proof.
  intros Ho Hmc.
  assert (General : forall s',
     read_signals (detector_turn self alive events h).2 (signals_of self)
       = Some s' ->
     notify_during self alive reported [events] h =
       (on_cobot o (update s' reported) ;;;
        Subject_notify os (signals_of self) reported)
         (detector_turn self alive events h).2).
  { intros s' Hr. unfold notify_during. rewrite Ho.
    cbn [Subject_notify_during hd tl].
    destruct (detector_turn self alive events h) as [alive' h'].
    cbn [snd] in *.
    assert (E : observer_update o (signals_of self) reported h' =
                on_cobot o (update s' reported) h').
    { unfold observer_update, bind, get. rewrite Hr.
      now destruct (on_cobot o (update s' reported) h') as [[r1 k1] t1]. }
    unfold bind. rewrite E.
    destruct (on_cobot o (update s' reported) h') as [[[[]|e|] h1] t1];
      try reflexivity.
    now rewrite Subject_notify_during_nil. }
  split; [|split].
  - intros alive'. unfold notify_during, notify.
    apply Subject_notify_during_nil.
  - exact General.
  - intros s b Hr -> ->.
    destruct (read_signals_inv _ _ _ Hr) as (Hb & _ & _).
    cbn [signals_of buttons_ref] in Hb.
    assert (Turn : detector_turn self true [press b] h =
                   (true, <[pressed_button self := PySet ({[ b ]} ∪ buttons s)]> h)).
    { unfold detector_turn. cbn [detector_run detector_dispatch].
      unfold adapter_update, press. cbn [user_index type Z.eqb negb].
      unfold bind, get. rewrite Hb. reflexivity. }
    rewrite Turn in General, Hmc. cbn [snd] in General, Hmc.
    apply General.
    exact (read_signals_buttons h (signals_of self) s _ Hr).
Qed.

(** C8, as the claim has it, fails: in the state [main] sets up, the
    published dictionary reads as "no button pressed", and a listener
    acting on that content does nothing; when a press of A reaches the
    adapter after the dictionary was built, the listener that is handed
    this same dictionary sends the standing pose. *)
Lemma published_snapshot_changes :
  read_signals wired.2 (signals_of wired.1) = Some (snapshot []) /\
  notify wired.1 [] wired.2 = (Ret tt, wired.2, []) /\
  update (snapshot []) [] init_MyCobot = (Ret tt, init_MyCobot, []) /\
  trace (notify_during wired.1 true [] [[press "A"]]) wired.2 =
    [send_angles [0%Q; 0%Q; 0%Q; 0%Q; 0%Q; 0%Q] 50; print_joint 1] /\
  trace (notify_during wired.1 true [] [[press "A"]]) wired.2 <>
    trace (notify wired.1 []) wired.2.
Proof.
  split; [reflexivity|]. split; [reflexivity|]. split; [reflexivity|].
  split; [reflexivity|]. discriminate.
Qed.

(** ** The shutdown sequence of [main] *)

Section Shutdown.
Variable ctrl_c : nat -> bool.
Variable stored : nat -> option exn.

Lemma supervise_request fuel : forall s k msg,
  (clock s <= k)%nat ->
  (forall i, (clock s <= i < k)%nat -> ctrl_c i = false) ->
  (forall i, (clock s <= i < k)%nat -> stored i = None) ->
  ctrl_c k = true \/ stored k = Some (KeyboardInterrupt msg) ->
  (k < clock s + fuel)%nat ->
  supervise ctrl_c stored fuel s =
    (Raise (KeyboardInterrupt (if ctrl_c k then "" else msg)),
     {| clock := S k; jd_observers := jd_observers s;
        sa_observers := sa_observers s |}, []).
Proof.
  induction fuel as [|fuel IH]; intros s k msg Hk Hq Hn Hreq Hfuel; [lia|].
  destruct s as [c jd sa]. cbn [clock jd_observers sa_observers] in *.
  cbn [supervise]. unfold bind at 1. unfold stmt.
  cbn [clock jd_observers sa_observers].
  destruct (decide (c = k)) as [->|Hne].
  - destruct (ctrl_c k) eqn:Ek; [reflexivity|].
    destruct Hreq as [Hreq|Hreq]; [discriminate|].
    unfold bind, get. cbn [clock Nat.pred]. rewrite Hreq. reflexivity.
  - rewrite (Hq c) by lia. unfold bind at 1. unfold get at 1.
    cbn [clock Nat.pred]. rewrite (Hn c) by lia. unfold ret at 1.
    rewrite (IH _ k msg); cbn [clock jd_observers sa_observers];
      try reflexivity; try assumption; try lia.
    + intros i Hi. apply Hq. lia.
    + intros i Hi. apply Hn. lia.
Qed.

Lemma shutdown_quiet c :
  (forall i, (c <= i)%nat -> ctrl_c i = false) ->
  shutdown ctrl_c {| clock := c; jd_observers := [obj_sa];
                     sa_observers := [obj_mc] |} =
    (Ret tt, {| clock := c + 28; jd_observers := []; sa_observers := [] |},
     shutdown_calls).
Proof.
  intros Hq.
  unfold shutdown, for_each, range_down, stmt, bind.
  cbn [clock jd_observers sa_observers].
  repeat (rewrite Hq by lia; simpl).
  assert (E : forall n m : nat, n = m ->
             mkMain n [] [] = mkMain m [] []) by (intros ? ? ->; reflexivity).
  rewrite (E _ (c + 28)%nat) by lia. reflexivity.
Qed.
End Shutdown.

Ltac main_steps :=
  cbv [bind stmt emit ret get put jd_register sa_register register app
       init_Main clock jd_observers sa_observers].

(** C9, as the code has it: when the first request to terminate, the
    operator's interrupt or the exception stored by the adapter, reaches
    the main thread inside the [try] block (from its statement 6 on) and no
    interrupt arrives once the [finally] block has begun, [main] runs the
    [finally] block once, to its end, in this order: both observers
    removed, [kill] on both threads, the sleep pose sent, ten waits of one
    second, all servos released.  None of these calls occurs before.  An
    interrupt that arrives in the [except] handler only replaces its print:
    [main] then ends with KeyboardInterrupt, after the same shutdown. *)
Theorem shutdown_sequence ctrl_c stored fuel k msg :
  (6 <= k)%nat ->
  (forall i, (i < k)%nat -> ctrl_c i = false) ->
  (forall i, (i < k)%nat -> stored i = None) ->
  ctrl_c k = true \/ ((8 <= k)%nat /\ stored k = Some (KeyboardInterrupt msg)) ->
  (forall i, (S k < i)%nat -> ctrl_c i = false) ->
  (k < 8 + fuel)%nat ->
  main ctrl_c stored fuel init_Main =
    ((if ctrl_c (S k) then Raise (KeyboardInterrupt "") else Ret tt),
     {| clock := k + 30; jd_observers := []; sa_observers := [] |},
     startup_calls k
     ++ (if ctrl_c (S k) then [] else [print "User stopped the program."])
     ++ shutdown_calls).
Proof.
  intros Hk Hpre Hnone Hreq Hpost Hfuel.
  assert (Htry :
    try_except_KeyboardInterrupt
      (stmt ctrl_c (emit (start "Joysticks Detector")) ;;;
       stmt ctrl_c (emit (start "Joystick Signal Adapter")) ;;;
       supervise ctrl_c stored fuel)
      (stmt ctrl_c (emit (print "User stopped the program.")))
      {| clock := 6%nat; jd_observers := [obj_sa]; sa_observers := [obj_mc] |} =
    ((if ctrl_c (S k) then Raise (KeyboardInterrupt "") else Ret tt),
     {| clock := k + 2; jd_observers := [obj_sa]; sa_observers := [obj_mc] |},
     (if (6 <? k)%nat then [start "Joysticks Detector"] else [])
     ++ (if (7 <? k)%nat then [start "Joystick Signal Adapter"] else [])
     ++ (if ctrl_c (S k) then [] else [print "User stopped the program."]))).
  { unfold try_except_KeyboardInterrupt.
    destruct (decide (k = 6%nat)) as [->|N6].
    { destruct Hreq as [E|[? _]]; [|lia].
      main_steps. rewrite E. main_steps.
      destruct (ctrl_c 7%nat); reflexivity. }
    destruct (decide (k = 7%nat)) as [->|N7].
    { destruct Hreq as [E|[? _]]; [|lia].
      main_steps. rewrite (Hpre 6%nat) by lia. main_steps.
      rewrite E. main_steps.
      destruct (ctrl_c 8%nat); reflexivity. }
    assert (Hreq' : ctrl_c k = true \/ stored k = Some (KeyboardInterrupt msg))
      by tauto.
    main_steps. rewrite (Hpre 6%nat) by lia. main_steps.
    rewrite (Hpre 7%nat) by lia. main_steps.
    rewrite (supervise_request ctrl_c stored fuel _ k msg);
      cbn [clock jd_observers sa_observers]; try assumption; try lia.
    - destruct (Nat.ltb_spec 6 k); [|lia]. destruct (Nat.ltb_spec 7 k); [|lia].
      replace (k + 2)%nat with (S (S k)) by lia.
      destruct (ctrl_c (S k)); reflexivity.
    - intros i Hi. apply Hpre. lia.
    - intros i Hi. apply Hnone. lia. }
  unfold main. main_steps.
  rewrite (Hpre 0%nat) by lia. main_steps.
  rewrite (Hpre 1%nat) by lia. main_steps.
  rewrite (Hpre 2%nat) by lia. main_steps.
  rewrite (Hpre 3%nat) by lia. main_steps.
  rewrite (Hpre 4%nat) by lia. main_steps.
  rewrite (Hpre 5%nat) by lia. main_steps.
  unfold try_finally.
  match goal with
  | |- context [try_except_KeyboardInterrupt ?b ?hd ?s] =>
      change (try_except_KeyboardInterrupt b hd s) with
        (try_except_KeyboardInterrupt
           (stmt ctrl_c (emit (start "Joysticks Detector")) ;;;
            stmt ctrl_c (emit (start "Joystick Signal Adapter")) ;;;
            supervise ctrl_c stored fuel)
           (stmt ctrl_c (emit (print "User stopped the program.")))
           {| clock := 6%nat; jd_observers := [obj_sa];
              sa_observers := [obj_mc] |})
  end.
  rewrite Htry.
  rewrite (shutdown_quiet ctrl_c (k + 2)) by (intros i Hi; apply Hpost; lia).
  unfold startup_calls.
  replace (k + 2 + 28)%nat with (k + 30)%nat by lia.
  destruct (ctrl_c (S k)), (6 <? k)%nat, (7 <? k)%nat; reflexivity.
Qed.

(** C9, as the claim has it, fails.  An interrupt at statement 8, in
    the supervising loop, followed by a second one at statement 18, during
    the wait, ends [main] with KeyboardInterrupt after the first second of
    the wait: the servos are never released.  An interrupt at statement 1,
    before the [try] block is entered, ends [main] with no shutdown call at
    all. *)
Lemma interrupt_cuts_shutdown :
  main (fun k => (k =? 8)%nat || (k =? 18)%nat) (fun _ => None) 5 init_Main =
    (Raise (KeyboardInterrupt ""),
     {| clock := 19; jd_observers := []; sa_observers := [] |},
     [print "__doc__"; set_color 0 255 0; print_joint 1;
      start "Joysticks Detector"; start "Joystick Signal Adapter";
      print "User stopped the program.";
      pop_observer "jd" 0; pop_observer "sa" 0;
      kill "Joysticks Detector"; kill "Joystick Signal Adapter";
      send_angles sleep_pose 50;
      print "MyCobot is going to sleep, wait for 10 seconds.";
      print_countdown 10; sleep 1]) /\
  ~ In release_all_servos
      (trace (main (fun k => (k =? 8)%nat || (k =? 18)%nat) (fun _ => None) 5)
         init_Main) /\
  main (fun k => (k =? 1)%nat) (fun _ => None) 5 init_Main =
    (Raise (KeyboardInterrupt ""),
     {| clock := 2; jd_observers := []; sa_observers := [] |},
     [print "__doc__"]).
Proof.
  split; [reflexivity|]. split; [|reflexivity].
  vm_compute. intros H.
  repeat (destruct H as [H|H]; [discriminate H|]). exact H.
Qed.

(** ** The theorems at concrete inputs *)

Lemma update_priority_A_Y :
  first_pressed (snapshot ["A"; "Y"]%string) = Some "A"%string /\
  _get_combination_action (snapshot ["A"; "Y"]%string) = None /\
  update (snapshot ["A"; "Y"]%string) [] init_MyCobot =
    (Ret tt, init_MyCobot,
     [send_angles [0%Q; 0%Q; 0%Q; 0%Q; 0%Q; 0%Q] 50;
      print_joint (joint init_MyCobot)]).
Proof.
  split; [reflexivity|]. split; [reflexivity|].
  refine (proj1 (proj2 (proj2 (update_priority (snapshot ["A"; "Y"]%string) []
                                 init_MyCobot "A" _) _)) _);
    reflexivity.
Defined.

Lemma combination_ends_program_wired :
  keyboard_interrupt
    (run wired.1 ([idle_tick] ++ combination_tick :: [idle_tick; idle_tick])
       wired.2).1.1.2 = Some (KeyboardInterrupt "").
Proof.
  refine (proj1 (proj2 (proj2
    (combination_ends_program wired.1 [idle_tick] combination_tick
       [idle_tick; idle_tick] wired.2 true wired.2 0%nat [] init_MyCobot
       (snapshot ["START"; "BACK"; "LEFT_SHOULDER"; "RIGHT_SHOULDER"]%string)
       _ _ _ _ _ _ _ _)))).
  - reflexivity.
  - reflexivity.
  - reflexivity.
  - reflexivity.
  - apply pressed_elem. reflexivity.
  - apply pressed_elem. reflexivity.
  - apply pressed_elem. reflexivity.
  - apply pressed_elem. reflexivity.
Defined.

Lemma update_commands_A_Y :
  (length (commands (trace (update (snapshot ["A"; "Y"]%string) [])
                       init_MyCobot)) <= 1)%nat.
Proof.
  apply (update_commands (snapshot ["A"; "Y"]%string) [] init_MyCobot).
  - vm_compute. lia.
  - reflexivity.
Defined.

Lemma joint_ring_from_1 :
  joint (updates six_left init_MyCobot) = joint init_MyCobot.
Proof.
  refine (proj1 (joint_ring six_left init_MyCobot _ _) _).
  - simpl. lia.
  - reflexivity.
  - unfold six_left. cbn [replicate].
    repeat (constructor; [split; reflexivity|]). constructor.
Defined.

Lemma joint6_wrap_minus_10 :
  exists target,
    update (snapshot ["DPAD_LEFT"%string])
      [0%Q; 0%Q; 0%Q; 0%Q; 0%Q; (-10)%Q] at_joint_6 =
      (Ret tt, at_joint_6, [get_angles; send_angle 6 target 10; print_joint 6]) /\
    ((binary64 (-10 - 179) < -180)%Q ->
     target = binary64 (binary64 (-10 - 179) + 360)) /\
    (~ (binary64 (-10 - 179) < -180)%Q -> target = binary64 (-10 - 179)) /\
    (-180 <= target <= 180)%Q.
Proof.
  apply (joint6_wrap (snapshot ["DPAD_LEFT"%string])
           [0%Q; 0%Q; 0%Q; 0%Q; 0%Q; (-10)%Q] at_joint_6 (-10)%Q).
  - reflexivity.
  - reflexivity.
  - split; vm_compute; discriminate.
  - split; reflexivity.
Defined.

Lemma release_of_unpressed_B :
  adapter_update wired.1 (release "B") wired.2 =
    (Raise (KeyError "B"), wired.2, []).
Proof.
  apply (release_of_unpressed_raises wired.1 (release "B") wired.2 ∅ "B").
  - reflexivity.
  - reflexivity.
  - reflexivity.
  - apply not_elem_of_empty.
Defined.

Lemma snapshot_shares_state_wired :
  notify_during wired.1 true [] [[press "A"]] wired.2 =
    (on_cobot 0%nat
       (update {| buttons := {[ "A"%string ]} ∪ buttons (snapshot []);
                  triggers := triggers (snapshot []);
                  sticks := sticks (snapshot []) |} []) ;;;
     Subject_notify [] (signals_of wired.1) [])
      (<[pressed_button wired.1 :=
           PySet ({[ "A"%string ]} ∪ buttons (snapshot []))]> wired.2).
Proof.
  refine (proj2 (proj2
    (snapshot_shares_state wired.1 true [] [press "A"] wired.2 0%nat []
       init_MyCobot _ _)) (snapshot []) "A"%string _ _ _).
  - reflexivity.
  - reflexivity.
  - reflexivity.
  - reflexivity.
  - reflexivity.
Defined.

Lemma shutdown_sequence_at_10 :
  main (fun k => (k =? 10)%nat || (k =? 11)%nat) (fun _ => None) 5 init_Main =
    (Raise (KeyboardInterrupt ""),
     {| clock := 40; jd_observers := []; sa_observers := [] |},
     startup_calls 10 ++ [] ++ shutdown_calls).
Proof.
  apply (shutdown_sequence (fun k => (k =? 10)%nat || (k =? 11)%nat)
           (fun _ => None) 5 10 "").
  - lia.
  - intros i Hi.
    apply orb_false_intro; apply Nat.eqb_neq; lia.
  - reflexivity.
  - left. reflexivity.
  - intros i Hi.
    apply orb_false_intro; apply Nat.eqb_neq; lia.
  - lia.
Defined.

(** * Further properties of the code *)

(** ** The adapter's record of the pressed buttons *)

Lemma adapter_update_press self h s b :
  h !! pressed_button self = Some (PySet s) ->
  adapter_update self (press b) h =
    (Ret tt, <[pressed_button self := PySet ({[ b ]} ∪ s)]> h, []).
Proof.
  intros Hs. unfold adapter_update, press. simpl.
  unfold bind, get. rewrite Hs. reflexivity.
Qed.

Lemma adapter_update_release self h s b :
  h !! pressed_button self = Some (PySet s) ->
  b ∈ s ->
  adapter_update self (release b) h =
    (Ret tt, <[pressed_button self := PySet (s ∖ {[ b ]})]> h, []).
Proof.
  intros Hs Hb. unfold adapter_update, release. simpl.
  unfold bind, get. rewrite Hs, (bool_decide_eq_true_2 _ Hb). reflexivity.
Qed.

Lemma detector_run_cons self e events h :
  detector_run [self] (e :: events) h =
    match adapter_update self e h with
    | (Ret _, h1, t1) =>
        match detector_run [self] events h1 with
        | (r, h2, t2) => (r, h2, t1 ++ t2)
        end
    | (Raise x, h1, t1) => (Raise x, h1, t1)
    | (Pending, h1, t1) => (Pending, h1, t1)
    end.
Proof.
  cbn [detector_run detector_dispatch]. unfold bind, ret.
  destruct (adapter_update self e h) as [[[[]|x|] h1] t1]; try reflexivity.
  destruct (detector_run [self] events h1) as [[r h2] t2].
  now rewrite app_nil_r.
Qed.

(** X1: A press followed by the release of the same button, the button not
    being recorded before, puts the heap back as it was. *)
Theorem press_release_round_trip self h s b :
  h !! pressed_button self = Some (PySet s) ->
  b ∉ s ->
  detector_run [self] [press b; release b] h = (Ret tt, h, []).
Proof.
  intros Hs Hb.
  rewrite detector_run_cons, (adapter_update_press self h s b Hs).
  rewrite detector_run_cons.
  rewrite (adapter_update_release self _ ({[ b ]} ∪ s) b);
    [|apply lookup_insert_eq|set_solver].
  cbn [detector_run]. unfold ret. cbn [app].
  rewrite insert_insert_eq.
  replace (({[ b ]} ∪ s) ∖ {[ b ]}) with s by set_solver.
  now rewrite insert_id.
Qed.

(** X2: The record is a set, not a count: two presses of a button are undone
    by one release, and the second release raises [KeyError]. *)
Theorem second_release_raises self h s b :
  h !! pressed_button self = Some (PySet s) ->
  detector_run [self] [press b; press b; release b; release b] h =
    (Raise (KeyError b), <[pressed_button self := PySet (s ∖ {[ b ]})]> h, []).
Proof.
  intros Hs.
  rewrite detector_run_cons, (adapter_update_press self h s b Hs).
  rewrite detector_run_cons.
  rewrite (adapter_update_press self _ ({[ b ]} ∪ s) b)
    by apply lookup_insert_eq.
  rewrite detector_run_cons.
  rewrite (adapter_update_release self _ ({[ b ]} ∪ ({[ b ]} ∪ s)) b);
    [|apply lookup_insert_eq|set_solver].
  rewrite detector_run_cons.
  rewrite (adapter_update_release_absent self (release b) _
             (({[ b ]} ∪ ({[ b ]} ∪ s)) ∖ {[ b ]}) b);
    [|reflexivity|reflexivity|apply lookup_insert_eq|set_solver].
  cbn [app]. rewrite !insert_insert_eq.
  replace (({[ b ]} ∪ ({[ b ]} ∪ s)) ∖ {[ b ]}) with (s ∖ {[ b ]}) by set_solver.
  reflexivity.
Qed.

(** ** Events the adapter does not record *)

Lemma adapter_update_ignored self e h :
  ignored e -> adapter_update self e h = (Ret tt, h, []).
Proof.
  intros [Hu|[Ht|Ht]]; unfold adapter_update.
  - destruct (Z.eqb_spec (user_index e) 0) as [E|E]; [contradiction|reflexivity].
  - rewrite Ht. destruct (negb (user_index e =? 0)); reflexivity.
  - rewrite Ht. destruct (negb (user_index e =? 0)); reflexivity.
Qed.

Lemma detector_dispatch_ignored observers e h :
  ignored e -> detector_dispatch observers e h = (Ret tt, h, []).
Proof.
  intros He. induction observers as [|o observers IH]; [reflexivity|].
  cbn [detector_dispatch]. unfold bind.
  now rewrite (adapter_update_ignored o e h He), IH.
Qed.

Lemma ignored_events_quiet observers events h :
  Forall ignored events ->
  detector_run observers events h = (Ret tt, h, []).
Proof.
  induction 1 as [|e events He _ IH]; [reflexivity|].
  cbn [detector_run]. unfold bind.
  now rewrite (detector_dispatch_ignored observers e h He), IH.
Qed.

(** X3: Events of other controllers than 0, and connection events, change
    nothing, whatever adapters are registered with the detector: the heap
    is the same after them, and before any of them the detector would
    dispatch the next event to the same state. *)
Theorem ignored_events_change_nothing observers events more h :
  Forall ignored events ->
  detector_run observers events h = (Ret tt, h, []) /\
  detector_run observers (events ++ more) h = detector_run observers more h.
Proof.
  intros Hi. split; [now apply ignored_events_quiet|].
  induction Hi as [|e events He _ IH]; [reflexivity|].
  cbn [app detector_run]. unfold bind at 1.
  rewrite (detector_dispatch_ignored observers e h He). rewrite IH.
  now destruct (detector_run observers more h) as [[r h2] t2].
Qed.

(** ** The shape of the adapter's objects *)

Lemma py_setitem_length {A} (l l' : list A) i v :
  py_setitem l i v = Some l' -> length l' = length l.
Proof.
  unfold py_setitem. destruct (py_index l i) as [k|]; [|discriminate].
  simpl. intros [= <-]. apply length_insert.
Qed.

Lemma py_index_lt {A} (l : list A) i k :
  py_index l i = Some k -> (k < length l)%nat.
Proof.
  unfold py_index.
  destruct (i <? 0) eqn:E;
    match goal with
    | |- context [if ?c then _ else _] => destruct c eqn:E2
    end; try discriminate; intros [= <-]; lia.
Qed.

Lemma py_setitem_getitem {A} (l l' : list A) i v :
  py_setitem l i v = Some l' -> py_getitem l' i = Some v.
Proof.
  unfold py_setitem, py_getitem.
  destruct (py_index l i) as [k|] eqn:E; [|discriminate].
  simpl. intros [= <-].
  assert (E' : py_index (<[k:=v]> l) i = Some k).
  { unfold py_index in *. now rewrite length_insert. }
  rewrite E'. simpl. apply list_lookup_insert_eq. now apply py_index_lt in E.
Qed.

Lemma adapter_update_well_formed self e h :
  well_formed self h ->
  well_formed self (exec (adapter_update self e) h) /\
  trace (adapter_update self e) h = [].
Proof.
  intros (s & H & Lt & Ls).
  destruct (read_signals_inv _ _ _ H) as (Hb & Ht & Hs).
  cbn [signals_of buttons_ref triggers_ref sticks_ref] in Hb, Ht, Hs.
  assert (Same : well_formed self h) by (exists s; auto).
  unfold exec, trace, adapter_update.
  destruct (negb (user_index e =? 0)); [now split|].
  destruct (type e) as [| |b|b|i v|i v]; try (now split);
    unfold bind, get; cbn [fst snd].
  - rewrite Hb. cbn. split; [|reflexivity].
    eexists. split; [exact (read_signals_buttons h _ s _ H)|]. now split.
  - rewrite Hb. destruct (bool_decide (b ∈ buttons s)); cbn; [|now split].
    split; [|reflexivity].
    eexists. split; [exact (read_signals_buttons h _ s _ H)|]. now split.
  - rewrite Ht. destruct (py_setitem (triggers s) i v) as [l|] eqn:E; cbn;
      [|now split].
    split; [|reflexivity].
    eexists. split; [exact (read_signals_triggers h _ s _ H)|].
    cbn. split; [|assumption]. now rewrite (py_setitem_length _ _ _ _ E).
  - rewrite Hs. destruct (py_setitem (sticks s) i v) as [l|] eqn:E; cbn;
      [|now split].
    split; [|reflexivity].
    eexists. split; [exact (read_signals_sticks h _ s _ H)|].
    cbn. split; [assumption|]. now rewrite (py_setitem_length _ _ _ _ E).
Qed.

(** X4: Whatever events the detector delivers, and however the delivery ends,
    the adapter's objects stay a set and two lists of two slots, and the
    adapter makes no call. *)
Theorem events_keep_shape self events : forall h,
  well_formed self h ->
  well_formed self (exec (detector_run [self] events) h) /\
  trace (detector_run [self] events) h = [].
Proof.
  induction events as [|e events IH]; intros h Hw; [now split|].
  destruct (adapter_update_well_formed self e h Hw) as [Hw1 Ht1].
  unfold exec, trace in *. rewrite detector_run_cons.
  destruct (adapter_update self e h) as [[[[]|x|] h1] t1];
    cbn [fst snd] in *; subst t1; try (now split).
  destruct (IH h1 Hw1) as [Hw2 Ht2].
  destruct (detector_run [self] events h1) as [[r h2] t2].
  cbn [fst snd] in *. now subst t2.
Qed.

(** X5: A trigger move with index 0 or 1 is recorded in that slot, where the
    snapshot then shows it, and leaves the other slot, the sticks and the
    buttons as they were; any index outside -2..1 raises [IndexError] and
    records nothing. *)
Theorem trigger_moved_recorded self h s e i v :
  read_signals h (signals_of self) = Some s ->
  length (triggers s) = 2%nat ->
  user_index e = 0 ->
  type e = EVENT_TRIGGER_MOVED i v ->
  (0 <= i <= 1 ->
     exists s',
       result (adapter_update self e) h = Ret tt /\
       read_signals (exec (adapter_update self e) h) (signals_of self) = Some s' /\
       triggers s' !! Z.to_nat i = Some v /\
       triggers s' !! Z.to_nat (1 - i) = triggers s !! Z.to_nat (1 - i) /\
       buttons s' = buttons s /\ sticks s' = sticks s) /\
  (i < -2 \/ 2 <= i ->
     adapter_update self e h = (Raise IndexError, h, [])).
Proof.
  intros H Len Hu He.
  destruct (read_signals_inv _ _ _ H) as (Hb & Ht & Hs).
  cbn [signals_of buttons_ref triggers_ref sticks_ref] in Hb, Ht, Hs.
  destruct (triggers s) as [|a [|b [|c l]]] eqn:Et; try discriminate Len.
  split.
  - intros Hi.
    exists {| buttons := buttons s; triggers := <[Z.to_nat i := v]> [a; b];
              sticks := sticks s |}.
    assert (E : py_setitem [a; b] i v = Some (<[Z.to_nat i := v]> [a; b])).
    { assert (Hc : i = 0 \/ i = 1) by lia. destruct Hc as [-> | ->]; reflexivity. }
    unfold result, exec, adapter_update. rewrite Hu, He. simpl.
    unfold bind, get. rewrite Ht, E. cbn [fst snd].
    split; [reflexivity|]. split.
    { exact (read_signals_triggers h (signals_of self) s _ H). }
    cbn [triggers buttons sticks].
    assert (Hc : i = 0 \/ i = 1) by lia.
    destruct Hc as [-> | ->]; repeat split; reflexivity.
  - intros Hi.
    unfold adapter_update. rewrite Hu, He. simpl.
    unfold bind, get. rewrite Ht.
    assert (E : py_setitem [a; b] i v = None).
    { unfold py_setitem, py_index.
      change (Z.of_nat (length [a; b])) with 2.
      destruct (Z.ltb_spec i 0).
      - destruct (Z.leb_spec 0 (i + 2)); [lia|reflexivity].
      - destruct (Z.leb_spec 0 i); [|reflexivity].
        destruct (Z.ltb_spec i 2); [lia|reflexivity]. }
    rewrite E. reflexivity.
Qed.

(** ** The state of the controller along a sequence of snapshots *)

Lemma combination_cases signals :
  _get_combination_action signals = None \/
  _get_combination_action signals = Some "end_program"%string.
Proof.
  unfold _get_combination_action.
  destruct (pressed "LEFT_SHOULDER" signals && pressed "RIGHT_SHOULDER" signals
            && pressed "START" signals && pressed "BACK" signals); auto.
Qed.

Lemma empty_not_pressed b signals :
  (0 <? size (buttons signals))%nat = false -> pressed b signals = false.
Proof.
  intros H. apply Nat.ltb_ge in H.
  assert (E : size (buttons signals) = 0%nat) by lia.
  apply size_empty_inv, leibniz_equiv in E.
  unfold pressed. rewrite E. apply bool_decide_eq_false_2. set_solver.
Qed.

Lemma empty_first_pressed signals :
  (0 <? size (buttons signals))%nat = false -> first_pressed signals = None.
Proof.
  intros H. unfold first_pressed, priority. cbn [List.find].
  now rewrite !(empty_not_pressed _ _ H).
Qed.

Lemma selectsb_eq b signals b' :
  _get_combination_action signals = None ->
  first_pressed signals = b' ->
  selectsb b signals = bool_decide (b' = Some b).
Proof. intros Hc <-. unfold selectsb. now rewrite Hc. Qed.

Lemma selectsb_combination b signals :
  _get_combination_action signals = Some "end_program"%string ->
  selectsb b signals = false.
Proof. intros Hc. unfold selectsb. now rewrite Hc. Qed.

(** Normalises the three tests on [selectsb] in a goal, the combination
    and the first pressed button being known. *)
Ltac decide_selects Hc H :=
  rewrite ?(selectsb_eq _ _ _ Hc H);
  repeat match goal with
         | |- context [bool_decide (?x = ?y)] =>
             let v := eval vm_compute in (bool_decide (x = y)) in
             change (bool_decide (x = y)) with v
         end;
  cbv iota.

(** The state [update] leaves, in every case. *)
Lemma exec_update signals reported mc :
  exec (update signals reported) mc =
    {| color := if selectsb "Y" signals then next_rgb (color mc) else color mc;
       joint := if selectsb "LEFT_SHOULDER" signals
                then previous_joint (joint mc)
                else if selectsb "RIGHT_SHOULDER" signals
                     then next_joint (joint mc)
                     else joint mc |}.
Proof.
  destruct mc as [c j]. cbn [color joint].
  destruct (0 <? size (buttons signals))%nat eqn:Hs.
  - destruct (combination_cases signals) as [Hc|Hc].
    + destruct (first_pressed signals) as [b|] eqn:H.
      * pose proof H as H'. split_priority H; injection H as <-;
          decide_selects Hc H'; enter_update Hc;
          unfold previous_joint, next_joint;
          cbv [exec next_color set_joint bind get]; cbn [color joint];
          run_branch; reflexivity.
      * decide_selects Hc H. unfold exec.
        rewrite update_none_pressed; [reflexivity| |assumption|assumption].
        now apply Nat.ltb_lt.
    + rewrite !(selectsb_combination _ _ Hc).
      unfold exec, update. rewrite Hs, Hc.
      rewrite bool_decide_eq_true_2 by reflexivity. reflexivity.
  - destruct (combination_cases signals) as [Hc|Hc].
    + decide_selects Hc (empty_first_pressed _ Hs).
      unfold exec, update. now rewrite Hs.
    + rewrite !(selectsb_combination _ _ Hc).
      unfold exec, update. now rewrite Hs.
Qed.

Lemma previous_joint_range j : 1 <= j <= 6 -> 1 <= previous_joint j <= 6.
Proof. unfold previous_joint. destruct (Z.eqb_spec j 1); lia. Qed.

Lemma next_joint_range j : 1 <= j <= 6 -> 1 <= next_joint j <= 6.
Proof. unfold next_joint. destruct (Z.eqb_spec j 6); lia. Qed.

(** X6: Whatever snapshots arrive, and whatever the actuator reports, the
    selected joint stays in 1..6 and the color keeps its invariant: sum
    255, channels in [0, 255], one channel zero. *)
Theorem updates_keep_state_valid (l : list (Signals * list Q)) : forall mc,
  1 <= joint mc <= 6 ->
  color_inv (color mc) ->
  1 <= joint (updates l mc) <= 6 /\ color_inv (color (updates l mc)).
Proof.
  induction l as [|t l IH]; intros mc Hj Hc; [now split|].
  rewrite updates_cons. apply IH; rewrite exec_update; cbn [color joint].
  - destruct (selectsb "LEFT_SHOULDER" t.1); [now apply previous_joint_range|].
    destruct (selectsb "RIGHT_SHOULDER" t.1); [now apply next_joint_range|].
    assumption.
  - destruct (selectsb "Y" t.1); [now apply next_rgb_inv|assumption].
Qed.

(** X7: The color after a sequence of snapshots depends only on how many of
    them reached the Y branch: it is the start color advanced that many
    times. *)
Theorem updates_color (l : list (Signals * list Q)) : forall mc,
  color (updates l mc) =
    Nat.iter (length (List.filter (fun t => selectsb "Y" t.1) l))
      next_rgb (color mc).
Proof.
  induction l as [|t l IH]; intros mc; [reflexivity|].
  rewrite updates_cons, IH, exec_update. cbn [color List.filter].
  destruct (selectsb "Y" t.1); [|reflexivity].
  cbn [length]. now rewrite Nat.iter_succ_r.
Qed.

(** ** At most one command per snapshot *)

Lemma trace_bind {S A B} (m : M S A) (f : A -> M S B) (s : S) :
  trace (bind m f) s =
    trace m s ++ match result m s with
                 | Ret a => trace (f a) (exec m s)
                 | _ => []
                 end.
Proof.
  unfold trace, result, exec, bind.
  destruct (m s) as [[[a|e|] s1] t1]; cbn [fst snd];
    [|now rewrite app_nil_r..].
  now destruct (f a s1) as [[r s2] t2].
Qed.

Lemma commands_app t1 t2 : commands (t1 ++ t2) = commands t1 ++ commands t2.
Proof. unfold commands. induction t1 as [|c t1 IH]; [reflexivity|].
  cbn [app List.filter]. destruct (is_command c); cbn [app]; now rewrite IH.
Qed.

Lemma update_at_most_one signals reported mc :
  (length (commands (trace (update signals reported) mc)) <= 1)%nat.
Proof.
  destruct (0 <? size (buttons signals))%nat eqn:Hs.
  - destruct (combination_cases signals) as [Hc|Hc].
    + destruct (first_pressed signals) as [b|] eqn:H.
      * split_priority H; enter_update Hc; run_branch; lia.
      * unfold trace. rewrite update_none_pressed;
          [cbn; lia| |assumption|assumption]. now apply Nat.ltb_lt.
    + unfold trace, update. rewrite Hs, Hc.
      rewrite bool_decide_eq_true_2 by reflexivity. cbn. lia.
  - unfold trace, update. rewrite Hs. cbn. lia.
Qed.

Lemma observer_update_at_most_one o obj reported h :
  (length (commands (trace (observer_update o obj reported) h)) <= 1)%nat.
Proof.
  unfold trace, observer_update, bind, get. cbn [fst snd].
  destruct (read_signals h obj) as [signals|]; [|cbn; lia].
  unfold on_cobot.
  destruct (h !! o) as [[| | |mc]|]; try (cbn; lia).
  pose proof (update_at_most_one signals reported mc) as Hle. unfold trace in Hle.
  destruct (update signals reported mc) as [[r mc'] t]. cbn [fst snd app] in *.
  exact Hle.
Qed.

Lemma Subject_notify_commands observers obj reported : forall h,
  (length (commands (trace (Subject_notify observers obj reported) h))
   <= length observers)%nat.
Proof.
  induction observers as [|o observers IH]; intros h; [cbn; lia|].
  cbn [Subject_notify length]. rewrite trace_bind, commands_app, length_app.
  pose proof (observer_update_at_most_one o obj reported h) as H1.
  destruct (result (observer_update o obj reported) h) as [[]|e|].
  - specialize (IH (exec (observer_update o obj reported) h)). lia.
  - cbn. lia.
  - cbn. lia.
Qed.

Lemma run_loop_commands self schedule : forall alive h,
  (length (commands (trace (run_loop self alive schedule) h))
   <= length (observers self) * length schedule)%nat.
Proof.
  induction schedule as [|t schedule IH]; intros alive h; [cbn; lia|].
  unfold trace. cbn [run_loop length].
  destruct (detector_turn self alive (incoming t) h) as [alive' h'].
  fold (trace (notify self (reported t) ;;; emit (sleep (1 # 10)) ;;;
               run_loop self alive' schedule) h').
  rewrite trace_bind, commands_app, length_app.
  pose proof (Subject_notify_commands (observers self) (signals_of self)
                (reported t) h') as H1.
  fold (notify self (reported t)) in H1.
  destruct (result (notify self (reported t)) h') as [[]|e|];
    [|cbn; lia..].
  rewrite trace_bind, commands_app, length_app.
  cbn [result emit fst snd].
  specialize (IH alive' (exec (emit (sleep (1 # 10)))
                           (exec (notify self (reported t)) h'))).
  cbn [trace emit snd commands List.filter is_command length] in *.
  unfold commands in *. lia.
Qed.

(** X8: Over any schedule, the clock loop sends the actuator at most one
    command per turn and registered observer: with the one controller that
    [main] registers, at most one command per turn. *)
Theorem run_at_most_one_command_per_turn self schedule h :
  (length (commands (run self schedule h).2)
   <= length (observers self) * length schedule)%nat.
Proof.
  pose proof (run_loop_commands self schedule true h) as H.
  unfold run, trace in *.
  destruct (run_loop self true schedule h) as [[[[]|[]|] h'] t];
    cbn [fst snd] in *; exact H.
Qed.

(** ** Rotation of joints 1 to 5, and a report that is too short *)

(** X9: With one of the joints 1..5 selected, DPAD_LEFT sends that joint to
    its entry of [_MIN_ANGLES] and DPAD_RIGHT to its entry of
    [_MAX_ANGLES], at speed 10: [update] returns, does not ask the actuator
    for its angles, and leaves the state as it is. *)
Theorem dpad_sends_limit signals reported mc :
  1 <= joint mc <= 5 ->
  (selects "DPAD_LEFT" signals ->
     exists m, _MIN_ANGLES !! Z.to_nat (joint mc - 1) = Some m /\
       update signals reported mc =
         (Ret tt, mc, [send_angle (joint mc) m 10; print_joint (joint mc)])) /\
  (selects "DPAD_RIGHT" signals ->
     exists m, _MAX_ANGLES !! Z.to_nat (joint mc - 1) = Some m /\
       update signals reported mc =
         (Ret tt, mc, [send_angle (joint mc) m 10; print_joint (joint mc)])).
Proof.
  intros Hj. destruct mc as [c j]. cbn [joint] in *.
  assert (Hc5 : j = 1 \/ j = 2 \/ j = 3 \/ j = 4 \/ j = 5) by lia.
  split; intros [Hc H]; split_priority H; enter_update Hc;
    destruct Hc5 as [->|[->|[->|[->| ->]]]]; eexists; split; reflexivity.
Qed.

Lemma py_getitem_short {A} (l : list A) (n : nat) :
  (length l <= n)%nat -> py_getitem l (Z.of_nat n) = None.
Proof.
  intros Hl. unfold py_getitem, py_index.
  destruct (Z.ltb_spec (Z.of_nat n) 0); [lia|].
  destruct (Z.leb_spec 0 (Z.of_nat n)); [|reflexivity].
  destruct (Z.ltb_spec (Z.of_nat n) (Z.of_nat (length l))); [lia|reflexivity].
Qed.

Lemma update_report_short signals reported mc :
  joint mc = 6 ->
  (length reported <= 5)%nat ->
  selects "DPAD_LEFT" signals \/ selects "DPAD_RIGHT" signals ->
  update signals reported mc = (Raise IndexError, mc, [get_angles]).
Proof.
  intros Hj Hl Hsel. apply (py_getitem_short _ 5%nat) in Hl.
  destruct mc as [c j]. cbn [joint] in Hj. subst j.
  destruct Hsel as [[Hc H]|[Hc H]]; split_priority H; enter_update Hc;
    cbv [bind get getitem emit]; cbn [joint fst snd];
    change (6 - 1) with (Z.of_nat 5); rewrite Hl; reflexivity.
Qed.

(** X10: With joint 6 selected and fewer than six angles reported, DPAD_LEFT
    and DPAD_RIGHT make [update] raise [IndexError] after the call of
    [get_angles]: nothing is sent and the state is unchanged.  In the clock
    loop the exception is not caught: the adapter thread ends at that turn
    with [keyboard_interrupt] left as it was, so [main] is not told. *)
Theorem short_report_kills_adapter_thread self t rest h o os mc signals :
  observers self = o :: os ->
  (detector_turn self true (incoming t) h).2 !! o = Some (PyCobot mc) ->
  read_signals (detector_turn self true (incoming t) h).2 (signals_of self)
    = Some signals ->
  joint mc = 6 ->
  (length (reported t) <= 5)%nat ->
  selects "DPAD_LEFT" signals \/ selects "DPAD_RIGHT" signals ->
  update signals (reported t) mc = (Raise IndexError, mc, [get_angles]) /\
  run self (t :: rest) h =
    (Died IndexError, self, (detector_turn self true (incoming t) h).2,
     [get_angles]).
Proof.
  intros Ho Hmc Hr Hj Hl Hsel.
  pose proof (update_report_short signals (reported t) mc Hj Hl Hsel) as E.
  split; [exact E|].
  unfold run. cbn [run_loop].
  destruct (detector_turn self true (incoming t) h) as [alive' h'].
  cbn [snd] in Hmc, Hr.
  unfold bind at 1. unfold notify. rewrite Ho. cbn [Subject_notify].
  unfold bind at 1. unfold observer_update.
  unfold bind at 1. unfold get at 1. rewrite Hr.
  unfold on_cobot. rewrite Hmc, E.
  rewrite (insert_id h' o _ Hmc). reflexivity.
Qed.

(** ** Every valid color leads to a primary color *)

Lemma next_rgb_green g :
  0 < g -> next_rgb (0, g, 255 - g) = (0, Z.max (g - 32) 0, 255 - Z.max (g - 32) 0).
Proof.
  intros Hg. unfold next_rgb. cbn [Z.eqb andb].
  destruct (Z.ltb_spec 0 g); [reflexivity|lia].
Qed.

Lemma next_rgb_blue b :
  0 < b -> next_rgb (255 - b, 0, b) = (255 - Z.max (b - 32) 0, 0, Z.max (b - 32) 0).
Proof.
  intros Hb. unfold next_rgb.
  destruct (Z.eqb_spec (255 - b) 0); cbn [Z.eqb Z.ltb Z.compare andb];
    destruct (Z.ltb_spec 0 b); try lia; reflexivity.
Qed.

Lemma next_rgb_red r :
  0 < r < 255 ->
  next_rgb (r, 255 - r, 0) = (Z.max (r - 32) 0, 255 - Z.max (r - 32) 0, 0).
Proof.
  intros Hr. unfold next_rgb.
  destruct (Z.eqb_spec r 0); [lia|].
  destruct (Z.eqb_spec (255 - r) 0); [lia|].
  cbn [Z.eqb andb]. destruct (Z.ltb_spec 0 r); [reflexivity|lia].
Qed.

Lemma green_phase k : forall g,
  32 * Z.of_nat k < g <= 32 * Z.of_nat k + 32 ->
  Nat.iter (S k) next_rgb (0, g, 255 - g) = (0, 0, 255).
Proof.
  induction k as [|k IH]; intros g Hg;
    rewrite Nat.iter_succ_r, next_rgb_green by lia.
  - replace (Z.max (g - 32) 0) with 0 by lia. reflexivity.
  - replace (Z.max (g - 32) 0) with (g - 32) by lia. apply IH. lia.
Qed.

Lemma blue_phase k : forall b,
  32 * Z.of_nat k < b <= 32 * Z.of_nat k + 32 ->
  Nat.iter (S k) next_rgb (255 - b, 0, b) = (255, 0, 0).
Proof.
  induction k as [|k IH]; intros b Hb;
    rewrite Nat.iter_succ_r, next_rgb_blue by lia.
  - replace (Z.max (b - 32) 0) with 0 by lia. reflexivity.
  - replace (Z.max (b - 32) 0) with (b - 32) by lia. apply IH. lia.
Qed.

Lemma red_phase k : forall r,
  32 * Z.of_nat k < r <= 32 * Z.of_nat k + 32 ->
  r < 255 ->
  Nat.iter (S k) next_rgb (r, 255 - r, 0) = (0, 255, 0).
Proof.
  induction k as [|k IH]; intros r Hr Hlt;
    rewrite Nat.iter_succ_r, next_rgb_red by lia.
  - replace (Z.max (r - 32) 0) with 0 by lia. reflexivity.
  - replace (Z.max (r - 32) 0) with (r - 32) by lia. apply IH; lia.
Qed.

Lemma steps_to_zero x :
  0 < x <= 255 ->
  exists k, (k < 8)%nat /\ 32 * Z.of_nat k < x <= 32 * Z.of_nat k + 32.
Proof.
  intros Hx. exists (Z.to_nat ((x - 1) / 32)).
  assert (H1 : 0 <= (x - 1) / 32 < 8).
  { split; [apply Z.div_pos; lia|apply Z.div_lt_upper_bound; lia]. }
  rewrite Z2Nat.id by lia. split; [lia|].
  pose proof (Z.mul_div_le (x - 1) 32 ltac:(lia)).
  pose proof (Z.mul_succ_div_gt (x - 1) 32 ltac:(lia)). lia.
Qed.

(** X11: From any color that satisfies the invariant, at most eight advances
    lead to a color with a single channel lit, (255, 0, 0), (0, 255, 0) or
    (0, 0, 255). *)
Theorem color_reaches_primary (mc : MyCobot) :
  color_inv (color mc) ->
  exists k, (k <= 8)%nat /\ primary (color (advance k mc)).
Proof.
  destruct mc as [[[r g] b] j]. cbn [color]. intros (Hsum & Hr & Hg & Hb & Hz).
  assert (Goal : exists k, (k <= 8)%nat /\ primary (Nat.iter k next_rgb (r, g, b))).
  { destruct (Z.eq_dec r 0) as [->|Nr].
    - destruct (Z.eq_dec g 0) as [->|Ng].
      + exists 0%nat. split; [lia|]. right; right. cbn. f_equal. lia.
      + destruct (steps_to_zero g ltac:(lia)) as (k & Hk & Hkg).
        exists (S k). split; [lia|]. right; right.
        replace b with (255 - g) by lia. now apply green_phase.
    - destruct (Z.eq_dec b 0) as [->|Nb].
      + destruct (Z.eq_dec g 0) as [->|Ng].
        * exists 0%nat. split; [lia|]. left. cbn. f_equal. f_equal. lia.
        * destruct (steps_to_zero r ltac:(lia)) as (k & Hk & Hkr).
          exists (S k). split; [lia|]. right; left.
          replace g with (255 - r) by lia. apply red_phase; lia.
      + assert (g = 0) by lia. subst g.
        destruct (steps_to_zero b ltac:(lia)) as (k & Hk & Hkb).
        exists (S k). split; [lia|]. left.
        replace r with (255 - b) by lia. now apply blue_phase. }
  destruct Goal as (k & Hk & Hp). exists k. split; [exact Hk|].
  now rewrite color_advance.
Qed.

(** ** Registering and removing observers *)

Section Observers.
Context {O : Type} `{EqDecision O}.

Lemma list_index_middle (l1 l2 : list O) (x : O) :
  x ∉ l1 -> list_index (l1 ++ x :: l2) x = Some (length l1).
Proof.
  induction l1 as [|y l1 IH]; intros Hx; cbn [app list_index length].
  - now rewrite decide_True.
  - rewrite decide_False by set_solver. rewrite IH by set_solver. reflexivity.
Qed.

Lemma list_index_None (l : list O) (x : O) :
  list_index l x = None <-> x ∉ l.
Proof.
  induction l as [|y l IH]; cbn [list_index].
  - split; [set_solver|reflexivity].
  - destruct (decide (y = x)) as [->|N].
    + split; [discriminate|set_solver].
    + destruct (list_index l x) as [i|] eqn:E; cbn.
      * split; [discriminate|]. intros Hx. exfalso.
        assert (Hl : x ∉ l) by set_solver. apply IH in Hl. discriminate.
      * split; [|reflexivity]. intros _.
        assert (Hl : x ∉ l) by now apply IH. set_solver.
Qed.

(** X12: [disregister] removes the first registration of the observer and
    keeps all others, in their order. *)
Theorem disregister_removes_first (l1 l2 : list O) (o : O) :
  o ∉ l1 -> disregister (l1 ++ o :: l2) o = Ret (l1 ++ l2).
Proof.
  intros Ho. unfold disregister. rewrite (list_index_middle l1 l2 o Ho).
  now rewrite delete_middle.
Qed.

(** X13: [disregister] raises [ValueError] exactly when the observer is not
    registered. *)
Theorem disregister_absent (l : list O) (o : O) :
  disregister l o = Raise ValueError <-> o ∉ l.
Proof.
  unfold disregister. rewrite <- list_index_None.
  destruct (list_index l o); split; intros E; try discriminate; reflexivity.
Qed.

(** X14: Registering an observer and then removing it always succeeds and
    leaves the same observers, up to their order; it leaves the very same
    list when the observer was not registered before.  An observer that was
    already registered is still registered afterwards. *)
Theorem register_disregister (l : list O) (o : O) :
  exists l', disregister (register l [o]) o = Ret l' /\
             l' ≡ₚ l /\ (o ∉ l -> l' = l) /\ (o ∈ l -> o ∈ l').
Proof.
  unfold register.
  destruct (list_index l o) as [i|] eqn:E.
  - assert (Hin : o ∈ l).
    { destruct (decide (o ∈ l)) as [Hin|Hn]; [exact Hin|].
      apply list_index_None in Hn. congruence. }
    apply list_elem_of_split_l in Hin as (l1 & l2 & -> & Hn).
    exists (l1 ++ l2 ++ [o]). split.
    + rewrite <- app_assoc. cbn [app]. unfold disregister.
      rewrite (list_index_middle l1 (l2 ++ [o]) o Hn).
      now rewrite delete_middle.
    + split; [|split].
      * apply Permutation_app_head. symmetry. apply Permutation_cons_append.
      * intros Hno. exfalso. set_solver.
      * intros _. set_solver.
  - apply list_index_None in E. exists l. split.
    + unfold disregister. rewrite (list_index_middle l [] o E).
      rewrite delete_middle. now rewrite app_nil_r.
    + split; [reflexivity|]. split; [reflexivity|]. intros Hin. exact Hin.
Qed.
End Observers.

(** ** Notification of several observers *)

Lemma bind_assoc {S A B C} (m : M S A) (f : A -> M S B) (g : B -> M S C) s :
  bind (bind m f) g s = bind m (fun a => bind (f a) g) s.
Proof.
  unfold bind. destruct (m s) as [[[a|e|] s1] t1]; try reflexivity.
  destruct (f a s1) as [[[b|e|] s2] t2]; try reflexivity.
  destruct (g b s2) as [[r s3] t3]. now rewrite app_assoc.
Qed.

Lemma bind_ext {S A B} (m : M S A) (f g : A -> M S B) s :
  (forall a s', f a s' = g a s') -> bind m f s = bind m g s.
Proof.
  intros E. unfold bind. destruct (m s) as [[[a|e|] s1] t1]; try reflexivity.
  now rewrite E.
Qed.

Lemma Subject_notify_append l1 l2 obj reported h :
  Subject_notify (l1 ++ l2) obj reported h =
    (Subject_notify l1 obj reported ;;; Subject_notify l2 obj reported) h.
Proof.
  revert h. induction l1 as [|o l1 IH]; intros h.
  - cbn [app Subject_notify]. unfold bind, ret.
    now destruct (Subject_notify l2 obj reported h) as [[r h2] t2].
  - cbn [app Subject_notify]. rewrite bind_assoc.
    apply bind_ext. intros _ h1. apply IH.
Qed.

(** X15: Observers are notified in registration order: notifying [l1 ++ l2]
    is notifying [l1] and then [l2].  An exception stops the notification:
    when an observer of [l1] raises, no observer of [l2] is updated and the
    outcome, heap and calls are those of notifying [l1] alone. *)
Theorem notify_in_registration_order l1 l2 obj reported h :
  Subject_notify (l1 ++ l2) obj reported h =
    (Subject_notify l1 obj reported ;;; Subject_notify l2 obj reported) h /\
  (forall e, result (Subject_notify l1 obj reported) h = Raise e ->
     Subject_notify (l1 ++ l2) obj reported h =
       Subject_notify l1 obj reported h).
Proof.
  split; [apply Subject_notify_append|].
  intros e He. rewrite Subject_notify_append. unfold result, bind in *.
  destruct (Subject_notify l1 obj reported h) as [[[[]|x|] h1] t1];
    cbn [fst] in He; try discriminate; reflexivity.
Qed.

(** ** The clock loop while no button is pressed *)

Lemma update_idle signals reported mc :
  buttons signals = ∅ -> update signals reported mc = (Ret tt, mc, []).
Proof. intros E. unfold update. rewrite E. reflexivity. Qed.

Lemma Subject_notify_idle observers obj reported h signals :
  read_signals h obj = Some signals ->
  buttons signals = ∅ ->
  Forall (fun o => exists mc, h !! o = Some (PyCobot mc)) observers ->
  Subject_notify observers obj reported h = (Ret tt, h, []).
Proof.
  intros Hr Hb Ho. induction Ho as [|o observers [mc Hmc] _ IH]; [reflexivity|].
  cbn [Subject_notify]. unfold bind at 1. unfold observer_update.
  unfold bind at 1. unfold get at 1. rewrite Hr.
  unfold on_cobot. rewrite Hmc, (update_idle _ _ _ Hb).
  rewrite (insert_id h o _ Hmc). now rewrite IH.
Qed.

Lemma run_loop_idle self schedule h signals :
  read_signals h (signals_of self) = Some signals ->
  buttons signals = ∅ ->
  Forall (fun o => exists mc, h !! o = Some (PyCobot mc)) (observers self) ->
  Forall (fun t => Forall ignored (incoming t)) schedule ->
  run_loop self true schedule h =
    (Pending, h, replicate (length schedule) (sleep (1 # 10))).
Proof.
  intros Hr Hb Ho Hs. induction Hs as [|t schedule Ht _ IH]; [reflexivity|].
  cbn [run_loop]. unfold detector_turn.
  rewrite (ignored_events_quiet [self] (incoming t) h Ht). cbn [is_Ret].
  unfold bind at 1. unfold notify.
  rewrite (Subject_notify_idle _ _ _ h signals Hr Hb Ho).
  unfold bind at 1. unfold emit at 1. now rewrite IH.
Qed.

(** X16: While no button is recorded as pressed and only ignored events
    arrive, the clock loop goes on, changes nothing, and its only calls
    are the waits of 0.1 s, one per turn: no command reaches the actuator
    and nothing is printed. *)
Theorem idle_loop_only_sleeps self schedule h signals :
  read_signals h (signals_of self) = Some signals ->
  buttons signals = ∅ ->
  Forall (fun o => exists mc, h !! o = Some (PyCobot mc)) (observers self) ->
  Forall (fun t => Forall ignored (incoming t)) schedule ->
  run self schedule h =
    (Looping, self, h, replicate (length schedule) (sleep (1 # 10))).
Proof.
  intros Hr Hb Ho Hs. unfold run.
  now rewrite (run_loop_idle self schedule h signals Hr Hb Ho Hs).
Qed.

(** ** What [main] does without a request, and in which order it shuts down *)

Section Supervision.
Variable ctrl_c : nat -> bool.
Variable stored : nat -> option exn.

Lemma supervise_quiet fuel : forall s,
  (forall i, (clock s <= i < clock s + fuel)%nat -> ctrl_c i = false) ->
  (forall i, (clock s <= i < clock s + fuel)%nat -> stored i = None) ->
  supervise ctrl_c stored fuel s =
    (Pending,
     {| clock := clock s + fuel; jd_observers := jd_observers s;
        sa_observers := sa_observers s |}, []).
Proof.
  induction fuel as [|fuel IH]; intros [c jd sa] Hq Hn;
    cbn [clock jd_observers sa_observers] in *.
  - cbn [supervise]. unfold pending. now rewrite Nat.add_0_r.
  - cbn [supervise]. unfold bind at 1. unfold stmt.
    cbn [clock jd_observers sa_observers].
    rewrite (Hq c) by lia. unfold bind at 1. unfold get at 1.
    cbn [clock Nat.pred]. rewrite (Hn c) by lia. unfold ret at 1.
    rewrite IH; cbn [clock jd_observers sa_observers].
    + now replace (S c + fuel)%nat with (c + S fuel)%nat by lia.
    + intros i Hi. apply Hq. lia.
    + intros i Hi. apply Hn. lia.
Qed.

Lemma supervise_outcome fuel : forall s,
  exists r c',
    supervise ctrl_c stored fuel s =
      (r, {| clock := c'; jd_observers := jd_observers s;
             sa_observers := sa_observers s |}, []).
Proof.
  induction fuel as [|fuel IH]; intros [c jd sa];
    cbn [clock jd_observers sa_observers].
  - eexists _, _. reflexivity.
  - cbn [supervise]. unfold bind at 1. unfold stmt.
    cbn [clock jd_observers sa_observers].
    destruct (ctrl_c c); [eexists _, _; reflexivity|].
    unfold bind at 1. unfold get at 1. cbn [clock Nat.pred].
    destruct (stored c) as [e|]; [eexists _, _; reflexivity|].
    unfold ret at 1.
    destruct (IH {| clock := S c; jd_observers := jd; sa_observers := sa |})
      as (r & c' & E).
    rewrite E. eexists _, _. reflexivity.
Qed.

(** Splits on the interrupts of the statements from [k] on, in program
    order, closing each case with [tac]. *)
Ltac walk k tac :=
  lazymatch goal with
  | |- context [ctrl_c k] =>
      destruct (ctrl_c k); simpl; [tac | walk (S k) tac]
  | _ => tac
  end.

Lemma shutdown_prefix c :
  exists r s' t,
    shutdown ctrl_c {| clock := c; jd_observers := [obj_sa];
                       sa_observers := [obj_mc] |} = (r, s', t) /\
    t `prefix_of` shutdown_calls.
Proof.
  unfold shutdown, for_each, range_down, stmt, bind.
  cbn [clock jd_observers sa_observers].
  walk c ltac:(eexists _, _, _; split; [reflexivity|eexists; reflexivity]).
Qed.

Lemma try_block_shape fuel c :
  exists r c' t,
    try_except_KeyboardInterrupt
      (stmt ctrl_c (emit (start "Joysticks Detector")) ;;;
       stmt ctrl_c (emit (start "Joystick Signal Adapter")) ;;;
       supervise ctrl_c stored fuel)
      (stmt ctrl_c (emit (print "User stopped the program.")))
      {| clock := c; jd_observers := [obj_sa]; sa_observers := [obj_mc] |} =
      (r, {| clock := c'; jd_observers := [obj_sa]; sa_observers := [obj_mc] |}, t) /\
    Forall (fun x => is_shutdown_call x = false) t.
Proof.
  unfold try_except_KeyboardInterrupt, bind, stmt, emit.
  cbn [clock jd_observers sa_observers].
  destruct (ctrl_c c); cbn [clock jd_observers sa_observers].
  { destruct (ctrl_c (S c)); eexists _, _, _; split;
      try reflexivity; repeat constructor. }
  destruct (ctrl_c (S c)); cbn [clock jd_observers sa_observers].
  { destruct (ctrl_c (S (S c))); eexists _, _, _; split;
      try reflexivity; repeat constructor. }
  destruct (supervise_outcome fuel
              {| clock := S (S c); jd_observers := [obj_sa];
                 sa_observers := [obj_mc] |}) as (r & c' & E).
  cbn [jd_observers sa_observers] in E. rewrite E.
  destruct r as [[]|[]|]; cbn [app clock jd_observers sa_observers];
    try (eexists _, _, _; split; [reflexivity|repeat constructor]).
  destruct (ctrl_c c'); eexists _, _, _; split;
    try reflexivity; repeat constructor.
Qed.

Lemma release_needs_sequence post :
  post `prefix_of` shutdown_calls ->
  In release_all_servos post ->
  post = shutdown_calls \/ post = take 27 shutdown_calls.
Proof.
  intros [k E] Hin. unfold shutdown_calls in E.
  repeat (destruct post as [|? post];
          [exfalso; cbn in Hin; intuition discriminate
          |cbn [app] in E; injection E as <- E]).
  destruct post as [|? post]; [right; reflexivity|].
  cbn [app] in E. injection E as <- E.
  destruct post as [|? post]; [left; reflexivity|discriminate E].
Qed.

(** X17: Whatever interrupts arrive and whenever, the calls of [main] are:
    calls that are no shutdown step, then an initial segment of the
    shutdown sequence.  So the servos are released at most once, and only
    after both observers were removed, [kill] was called on both threads,
    the sleep pose was sent and the ten waits of one second were made. *)
Theorem main_shutdown_order fuel :
  exists pre post,
    trace (main ctrl_c stored fuel) init_Main = pre ++ post /\
    Forall (fun x => is_shutdown_call x = false) pre /\
    post `prefix_of` shutdown_calls /\
    (In release_all_servos (trace (main ctrl_c stored fuel) init_Main) ->
     post = shutdown_calls \/ post = take 27 shutdown_calls).
Proof.
  assert (Shape : exists pre post,
    trace (main ctrl_c stored fuel) init_Main = pre ++ post /\
    Forall (fun x => is_shutdown_call x = false) pre /\
    post `prefix_of` shutdown_calls).
  { unfold trace, main.
    cbv [bind stmt emit ret get put jd_register sa_register register
         init_Main clock jd_observers sa_observers].
    destruct (ctrl_c 0).
    { exists [], []. repeat split; [constructor|apply prefix_nil]. }
    destruct (ctrl_c 1).
    { eexists _, []. split; [symmetry; apply app_nil_r|].
      split; [cbn; repeat constructor|apply prefix_nil]. }
    destruct (ctrl_c 2).
    { eexists _, []. split; [symmetry; apply app_nil_r|].
      split; [cbn; repeat constructor|apply prefix_nil]. }
    destruct (ctrl_c 3).
    { eexists _, []. split; [symmetry; apply app_nil_r|].
      split; [cbn; repeat constructor|apply prefix_nil]. }
    destruct (ctrl_c 4).
    { eexists _, []. split; [symmetry; apply app_nil_r|].
      split; [cbn; repeat constructor|apply prefix_nil]. }
    destruct (ctrl_c 5).
    { eexists _, []. split; [symmetry; apply app_nil_r|].
      split; [cbn; repeat constructor|apply prefix_nil]. }
    unfold try_finally.
    match goal with
    | |- context [try_except_KeyboardInterrupt ?b ?hd ?s] =>
        change (try_except_KeyboardInterrupt b hd s) with
          (try_except_KeyboardInterrupt
             (stmt ctrl_c (emit (start "Joysticks Detector")) ;;;
              stmt ctrl_c (emit (start "Joystick Signal Adapter")) ;;;
              supervise ctrl_c stored fuel)
             (stmt ctrl_c (emit (print "User stopped the program.")))
             {| clock := 6%nat; jd_observers := [obj_sa];
                sa_observers := [obj_mc] |})
    end.
    destruct (try_block_shape fuel 6%nat) as (r & c' & t & E & Ht).
    rewrite E.
    destruct (shutdown_prefix c') as (r2 & s2 & t2 & E2 & Hp).
    destruct r as [[]|e|]; rewrite ?E2.
    - exists ([print "__doc__"; set_color 0 255 0; print_joint 1] ++ t), t2.
      destruct r2; cbn [snd app];
        (split; [reflexivity|]); (split; [|exact Hp]);
        repeat constructor; exact Ht.
    - exists ([print "__doc__"; set_color 0 255 0; print_joint 1] ++ t), t2.
      destruct r2; cbn [snd app];
        (split; [reflexivity|]); (split; [|exact Hp]);
        repeat constructor; exact Ht.
    - exists ([print "__doc__"; set_color 0 255 0; print_joint 1] ++ t), [].
      split; [cbn [snd app]; rewrite app_nil_r; reflexivity|].
      split; [|apply prefix_nil].
      cbn [app]. repeat constructor; exact Ht. }
  destruct Shape as (pre & post & E & Hpre & Hpost).
  exists pre, post. repeat split; try assumption.
  intros Hin. apply release_needs_sequence; [exact Hpost|].
  rewrite E in Hin. apply in_app_or in Hin as [Hin|Hin]; [|exact Hin].
  exfalso. rewrite Forall_forall in Hpre.
  apply list_elem_of_In in Hin. now apply Hpre in Hin.
Qed.

Ltac quiet_steps :=
  cbv [bind stmt emit ret get put jd_register sa_register register
       init_Main clock jd_observers sa_observers try_finally
       try_except_KeyboardInterrupt].

(** X18: As long as no interrupt arrives and the adapter has stored no
    exception, [main] sets up, starts both threads and stays in its
    supervising loop: it makes no shutdown call and both observers stay
    registered. *)
Theorem main_keeps_supervising fuel :
  (forall i, (i < 8 + fuel)%nat -> ctrl_c i = false) ->
  (forall i, (i < 8 + fuel)%nat -> stored i = None) ->
  main ctrl_c stored fuel init_Main =
    (Pending,
     {| clock := 8 + fuel; jd_observers := [obj_sa]; sa_observers := [obj_mc] |},
     [print "__doc__"; set_color 0 255 0; print_joint 1;
      start "Joysticks Detector"; start "Joystick Signal Adapter"]).
Proof.
  intros Hq Hn. unfold main. quiet_steps.
  rewrite (Hq 0%nat) by lia. quiet_steps.
  rewrite (Hq 1%nat) by lia. quiet_steps.
  rewrite (Hq 2%nat) by lia. quiet_steps.
  rewrite (Hq 3%nat) by lia. quiet_steps.
  rewrite (Hq 4%nat) by lia. quiet_steps.
  rewrite (Hq 5%nat) by lia. quiet_steps.
  rewrite (Hq 6%nat) by lia. quiet_steps.
  rewrite (Hq 7%nat) by lia. quiet_steps.
  rewrite supervise_quiet; cbn [clock jd_observers sa_observers].
  - reflexivity.
  - intros i Hi. apply Hq. lia.
  - intros i Hi. apply Hn. lia.
Qed.
End Supervision.

(** ** Triggers and sticks do not reach the actuator *)

Lemma update_buttons_only s1 s2 reported mc :
  buttons s1 = buttons s2 -> update s1 reported mc = update s2 reported mc.
Proof.
  intros E. unfold update, _get_combination_action, pressed. now rewrite E.
Qed.

Lemma read_signals_insert_cobot h d s o mc mc' :
  read_signals h d = Some s ->
  h !! o = Some (PyCobot mc) ->
  read_signals (<[o := PyCobot mc']> h) d = Some s.
Proof.
  intros H Ho. destruct (read_signals_inv _ _ _ H) as (Hb & Ht & Hs).
  unfold read_signals.
  unfold loc in *.
  assert (N1 : o <> buttons_ref d).
  { intros E. rewrite E, Hb in Ho. discriminate Ho. }
  assert (N2 : o <> triggers_ref d).
  { intros E. rewrite E, Ht in Ho. discriminate Ho. }
  assert (N3 : o <> sticks_ref d).
  { intros E. rewrite E, Hs in Ho. discriminate Ho. }
  rewrite !lookup_insert_ne by assumption.
  now rewrite Hb, Ht, Hs; destruct s.
Qed.

Lemma observer_update_analog self o reported h1 h2 :
  same_but_analog self h1 h2 ->
  result (observer_update o (signals_of self) reported) h1 =
    result (observer_update o (signals_of self) reported) h2 /\
  trace (observer_update o (signals_of self) reported) h1 =
    trace (observer_update o (signals_of self) reported) h2 /\
  same_but_analog self
    (exec (observer_update o (signals_of self) reported) h1)
    (exec (observer_update o (signals_of self) reported) h2).
Proof.
  intros [(s1 & s2 & H1 & H2 & Eb) Hl].
  assert (R : same_but_analog self h1 h2) by (split; [eauto|exact Hl]).
  destruct (read_signals_inv _ _ _ H1) as (_ & Ht1 & Hs1).
  destruct (read_signals_inv _ _ _ H2) as (_ & Ht2 & Hs2).
  cbn [signals_of triggers_ref sticks_ref] in Ht1, Hs1, Ht2, Hs2.
  unfold result, trace, exec, observer_update, bind, get. cbn [fst snd].
  rewrite H1, H2. unfold on_cobot.
  destruct (decide (o = trigger_values self)) as [->|Nt].
  { rewrite Ht1, Ht2. cbn [fst snd].
    split; [reflexivity|split; [reflexivity|exact R]]. }
  destruct (decide (o = stick_values self)) as [->|Ns].
  { rewrite Hs1, Hs2. cbn [fst snd].
    split; [reflexivity|split; [reflexivity|exact R]]. }
  rewrite <- (Hl o Nt Ns).
  destruct (h1 !! o) as [[| | |mc]|] eqn:Ho;
    try (cbn [fst snd]; split; [reflexivity|split; [reflexivity|exact R]]).
  rewrite <- (update_buttons_only s1 s2 reported mc Eb).
  destruct (update s1 reported mc) as [[r mc'] t]. cbn [fst snd app].
  split; [reflexivity|]. split; [reflexivity|]. split.
  - exists s1, s2. split; [|split; [|exact Eb]].
    + exact (read_signals_insert_cobot h1 _ s1 o mc mc' H1 Ho).
    + apply (read_signals_insert_cobot h2 _ s2 o mc mc' H2).
      transitivity (h1 !! o); [symmetry; now apply Hl|exact Ho].
  - intros l N1 N2. destruct (decide (l = o)) as [->|N].
    + now rewrite !lookup_insert_eq.
    + rewrite !lookup_insert_ne by congruence. now apply Hl.
Qed.

Lemma Subject_notify_analog self observers reported : forall h1 h2,
  same_but_analog self h1 h2 ->
  result (Subject_notify observers (signals_of self) reported) h1 =
    result (Subject_notify observers (signals_of self) reported) h2 /\
  trace (Subject_notify observers (signals_of self) reported) h1 =
    trace (Subject_notify observers (signals_of self) reported) h2 /\
  same_but_analog self
    (exec (Subject_notify observers (signals_of self) reported) h1)
    (exec (Subject_notify observers (signals_of self) reported) h2).
Proof.
  induction observers as [|o observers IH]; intros h1 h2 R.
  { split; [reflexivity|split; [reflexivity|exact R]]. }
  destruct (observer_update_analog self o reported h1 h2 R) as (Er & Et & R').
  specialize (IH _ _ R'). destruct IH as (Er2 & Et2 & R2).
  unfold result, trace, exec in *. cbn [Subject_notify]. unfold bind.
  destruct (observer_update o (signals_of self) reported h1) as [[r1 k1] t1].
  destruct (observer_update o (signals_of self) reported h2) as [[r2 k2] t2].
  cbn [fst snd] in *. subst r2 t2.
  destruct r1 as [[]|e|];
    try (split; [reflexivity|split; [reflexivity|exact R']]).
  destruct (Subject_notify observers (signals_of self) reported k1)
    as [[r3 k3] t3].
  destruct (Subject_notify observers (signals_of self) reported k2)
    as [[r4 k4] t4].
  cbn [fst snd] in *. subst r4 t4.
  split; [reflexivity|split; [reflexivity|exact R2]].
Qed.

(** X19: A trigger or stick event never changes what the next notification
    does: with or without the event, [notify] has the same outcome, makes
    the same calls, and leaves the same objects everywhere but in the
    adapter's trigger and stick lists. *)
Theorem analog_events_do_not_matter self h s e reported :
  read_signals h (signals_of self) = Some s ->
  (exists i v, type e = EVENT_TRIGGER_MOVED i v) \/
  (exists i v, type e = EVENT_STICK_MOVED i v) ->
  result (notify self reported) (exec (adapter_update self e) h) =
    result (notify self reported) h /\
  trace (notify self reported) (exec (adapter_update self e) h) =
    trace (notify self reported) h /\
  (forall l, l <> trigger_values self -> l <> stick_values self ->
     exec (notify self reported) (exec (adapter_update self e) h) !! l =
     exec (notify self reported) h !! l).
Proof.
  intros H He.
  assert (R : same_but_analog self (exec (adapter_update self e) h) h).
  { destruct (read_signals_inv _ _ _ H) as (Hb & Ht & Hs).
    cbn [signals_of buttons_ref triggers_ref sticks_ref] in Hb, Ht, Hs.
    assert (Same : same_but_analog self h h).
    { split; [exists s, s; auto|reflexivity]. }
    unfold exec, adapter_update.
    destruct (negb (user_index e =? 0)); [exact Same|].
    destruct He as [(i & v & ->)|(i & v & ->)]; unfold bind, get; cbn [fst snd].
    - rewrite Ht. destruct (py_setitem (triggers s) i v) as [l|];
        [|exact Same]. cbn [fst snd put]. split.
      + eexists _, s. split; [exact (read_signals_triggers h _ s _ H)|].
        split; [exact H|reflexivity].
      + intros l' N1 N2. now rewrite lookup_insert_ne by congruence.
    - rewrite Hs. destruct (py_setitem (sticks s) i v) as [l|];
        [|exact Same]. cbn [fst snd put]. split.
      + eexists _, s. split; [exact (read_signals_sticks h _ s _ H)|].
        split; [exact H|reflexivity].
      + intros l' N1 N2. now rewrite lookup_insert_ne by congruence. }
  destruct (Subject_notify_analog self (observers self) reported _ _ R)
    as (Er & Et & [_ Hl]).
  unfold notify. split; [exact Er|split; [exact Et|exact Hl]].
Qed.

(** ** The further properties at concrete inputs *)

Lemma press_release_A :
  detector_run [wired.1] [press "A"; release "A"] wired.2 = (Ret tt, wired.2, []).
Proof.
  apply (press_release_round_trip wired.1 wired.2 ∅ "A").
  - reflexivity.
  - apply not_elem_of_empty.
Defined.

Lemma second_release_of_A :
  detector_run [wired.1] [press "A"; press "A"; release "A"; release "A"] wired.2 =
    (Raise (KeyError "A"),
     <[pressed_button wired.1 := PySet (∅ ∖ {[ "A"%string ]})]> wired.2, []).
Proof.
  apply (second_release_raises wired.1 wired.2 ∅ "A"). reflexivity.
Defined.

Lemma ignored_then_press :
  detector_run [wired.1]
    ([other_controller (press "A"); other_controller (release "B")]
     ++ [press "A"]) wired.2 =
  detector_run [wired.1] [press "A"] wired.2.
Proof.
  refine (proj2 (ignored_events_change_nothing [wired.1]
                   [other_controller (press "A"); other_controller (release "B")]
                   [press "A"] wired.2 _)).
  constructor; [left; discriminate|].
  constructor; [left; discriminate|]. constructor.
Defined.

Lemma wired_well_formed : well_formed wired.1 wired.2.
Proof. exists (snapshot []). repeat split. Defined.

Lemma events_keep_shape_wired :
  well_formed wired.1
    (exec (detector_run [wired.1]
             [press "A"; move_trigger 1 (1 # 2); move_trigger 2 (1 # 2);
              press "B"]) wired.2).
Proof.
  refine (proj1 (events_keep_shape wired.1 _ wired.2 _)).
  exact wired_well_formed.
Defined.

Lemma trigger_moved_right :
  exists s',
    result (adapter_update wired.1 (move_trigger 1 (1 # 2))) wired.2 = Ret tt /\
    read_signals (exec (adapter_update wired.1 (move_trigger 1 (1 # 2))) wired.2)
      (signals_of wired.1) = Some s' /\
    triggers s' !! Z.to_nat 1 = Some (1 # 2)%Q /\
    triggers s' !! Z.to_nat (1 - 1) = triggers (snapshot []) !! Z.to_nat (1 - 1) /\
    buttons s' = buttons (snapshot []) /\ sticks s' = sticks (snapshot []).
Proof.
  refine (proj1 (trigger_moved_recorded wired.1 wired.2 (snapshot [])
                   (move_trigger 1 (1 # 2)) 1 (1 # 2)%Q _ _ _ _) _).
  - reflexivity.
  - reflexivity.
  - reflexivity.
  - reflexivity.
  - lia.
Defined.

Lemma state_valid_after_two :
  1 <= joint (updates [(snapshot ["LEFT_SHOULDER"%string], []);
                       (snapshot ["Y"%string], [])] init_MyCobot) <= 6 /\
  color_inv (color (updates [(snapshot ["LEFT_SHOULDER"%string], []);
                             (snapshot ["Y"%string], [])] init_MyCobot)).
Proof.
  apply (updates_keep_state_valid _ init_MyCobot).
  - simpl. lia.
  - unfold color_inv. simpl. lia.
Defined.

Lemma dpad_left_joint_1 :
  exists m, _MIN_ANGLES !! Z.to_nat (joint init_MyCobot - 1) = Some m /\
    update (snapshot ["DPAD_LEFT"%string]) [] init_MyCobot =
      (Ret tt, init_MyCobot,
       [send_angle (joint init_MyCobot) m 10; print_joint (joint init_MyCobot)]).
Proof.
  refine (proj1 (dpad_sends_limit (snapshot ["DPAD_LEFT"%string]) []
                   init_MyCobot _) _).
  - simpl. lia.
  - split; reflexivity.
Defined.

Lemma short_report_wired :
  run wired.1 [dpad_left_tick; idle_tick] wired_at_joint_6 =
    (Died IndexError, wired.1,
     (detector_turn wired.1 true (incoming dpad_left_tick) wired_at_joint_6).2,
     [get_angles]).
Proof.
  refine (proj2 (short_report_kills_adapter_thread wired.1 dpad_left_tick
                   [idle_tick] wired_at_joint_6 0%nat [] at_joint_6
                   (snapshot ["DPAD_LEFT"%string]) _ _ _ _ _ _)).
  - reflexivity.
  - reflexivity.
  - reflexivity.
  - reflexivity.
  - simpl. lia.
  - left. split; reflexivity.
Defined.

Lemma initial_color_reaches_primary :
  exists k, (k <= 8)%nat /\ primary (color (advance k init_MyCobot)).
Proof.
  apply (color_reaches_primary init_MyCobot). unfold color_inv. simpl. lia.
Defined.

Lemma disregister_sa :
  disregister ([obj_mc] ++ obj_sa :: [obj_jd; obj_sa]) obj_sa =
    Ret ([obj_mc] ++ [obj_jd; obj_sa]).
Proof.
  apply (disregister_removes_first [obj_mc] [obj_jd; obj_sa] obj_sa).
  apply not_elem_of_cons. split; [discriminate|apply not_elem_of_nil].
Defined.

Lemma idle_loop_wired :
  run wired.1 [idle_tick; idle_tick; idle_tick] wired.2 =
    (Looping, wired.1, wired.2, replicate 3 (sleep (1 # 10))).
Proof.
  apply (idle_loop_only_sleeps wired.1 [idle_tick; idle_tick; idle_tick]
           wired.2 (snapshot [])).
  - reflexivity.
  - reflexivity.
  - constructor; [exists init_MyCobot; reflexivity|constructor].
  - repeat constructor.
Defined.

Lemma main_keeps_supervising_3 :
  main (fun _ => false) (fun _ => None) 3 init_Main =
    (Pending,
     {| clock := 8 + 3; jd_observers := [obj_sa]; sa_observers := [obj_mc] |},
     [print "__doc__"; set_color 0 255 0; print_joint 1;
      start "Joysticks Detector"; start "Joystick Signal Adapter"]).
Proof.
  apply (main_keeps_supervising (fun _ => false) (fun _ => None) 3).
  - reflexivity.
  - reflexivity.
Defined.

Lemma trigger_does_not_matter_wired :
  trace (notify wired.1 [])
    (exec (adapter_update wired.1 (move_trigger 0 (1 # 2))) wired.2) =
  trace (notify wired.1 []) wired.2.
Proof.
  refine (proj1 (proj2 (analog_events_do_not_matter wired.1 wired.2 (snapshot [])
                          (move_trigger 0 (1 # 2)) [] _ _))).
  - reflexivity.
  - left. exists 0, (1 # 2)%Q. reflexivity.
Defined.
